(** * Ordered-position reordering of kanban cards

    A shallow embedding of the card-reordering code of the project tracker:
    the move endpoint ([app/api/cards/move/route.ts], [PUT]), the client's
    optimistic prediction ([handleMoveCard] of the board page) and the two
    store operations [createCard] and [deleteCard] of [lib/db.ts].

    The [cards] table is a list of rows in storage order.  Every SQL statement
    of the source is a function on that list, and a handler threads the table
    through its statements in the order the source awaits them. *)

From Stdlib Require Import ZArith List Finite String Bool Lia Permutation Sorted.
Import ListNotations.

Open Scope string_scope.
Open Scope Z_scope.
Open Scope list_scope.

(** ** Data model *)

(** A row of the [cards] table ([interface Card] of [lib/db.ts]).  The
    [priority] and [status] columns are [TEXT]: nothing in the schema
    restricts them to the values of the TypeScript unions. *)
Record Card : Type := mkCard {
  id : Z;
  board_id : Z;
  title : string;
  description : option string;
  assignee : option string;
  priority : string;
  status : string;
  position : Z;
  created_at : string;
  updated_at : option string
}.

Definition Table : Type := list Card.

(** The union ['high' | 'medium' | 'low'] of the client's signatures. *)
Inductive Priority : Type := high | medium | low.

Definition priority_text (p : Priority) : string :=
  match p with
  | high => "high"
  | medium => "medium"
  | low => "low"
  end.

Definition is_valid_priority (s : string) : bool :=
  (s =? "high")%string || (s =? "medium")%string || (s =? "low")%string.

(** [SET position = v] and [SET priority = v] on one row. *)
Definition set_position (v : Z) (c : Card) : Card :=
  mkCard (id c) (board_id c) (title c) (description c) (assignee c)
         (priority c) (status c) v (created_at c) (updated_at c).

Definition set_priority (v : string) (c : Card) : Card :=
  mkCard (id c) (board_id c) (title c) (description c) (assignee c)
         v (status c) (position c) (created_at c) (updated_at c).

(** The [WHERE] clauses shared by the statements: [id = ?] and
    [board_id = ? AND priority = ?]. *)
Definition has_id (i : Z) (c : Card) : bool := id c =? i.

Definition in_column (b : Z) (p : string) (c : Card) : bool :=
  (board_id c =? b) && (priority c =? p)%string.

(** ** SQL statements over the table *)

Definition SELECT (where_ : Card -> bool) (t : Table) : list Card :=
  filter where_ t.

Definition UPDATE (set : Card -> Card) (where_ : Card -> bool) (t : Table) : Table :=
  map (fun c => if where_ c then set c else c) t.

Definition DELETE (where_ : Card -> bool) (t : Table) : Table :=
  filter (fun c => negb (where_ c)) t.

Definition INSERT (row : Card) (t : Table) : Table := t ++ [row].

(** [SELECT MAX(position)]: [NULL] on no rows. *)
Definition MAX_position (rows : list Card) : option Z :=
  match rows with
  | [] => None
  | c :: rest => Some (fold_left Z.max (map position rest) (position c))
  end.

(** ** The move endpoint: [PUT] of [app/api/cards/move/route.ts] *)

(** The destructured JSON body.  A field that is absent is [undefined],
    here [None]; the present fields have the types of the request. *)
Record MoveRequest : Type := mkMoveRequest {
  cardId : option Z;
  boardId : option Z;
  newPriority : option string;
  newPosition : option Z
}.

Inductive Response : Type :=
  | Success        (* { success: true } *)
  | BadRequest     (* status 400 *)
  | NotFound       (* status 404 *)
  | ServerError.   (* status 500: a statement threw; the store below never throws *)

(** JavaScript's [!v] on a number and on a string. *)
Definition falsy_number (n : Z) : bool := n =? 0.

Definition falsy_string (s : string) : bool := (s =? "")%string.

(** [SET position = position - 1] and [SET position = position + 1]. *)
Definition decrement (c : Card) : Card := set_position (position c - 1) c.

Definition increment (c : Card) : Card := set_position (position c + 1) c.

(** The statements after the two guards, for a card whose row was read. *)
Definition shift_siblings (boardId : Z) (oldPriority : string) (oldPosition : Z)
    (newPriority : string) (newPosition : Z) (db : Table) : Table :=
  if negb (oldPriority =? newPriority)%string then
    (* Decrement positions in old column *)
    let db1 :=
      UPDATE decrement
        (fun c => in_column boardId oldPriority c && (oldPosition <? position c)) db in
    (* Increment positions in new column to make space *)
    UPDATE increment
      (fun c => in_column boardId newPriority c && (newPosition <=? position c)) db1
  else if oldPosition <? newPosition then
    (* Moving down - decrement positions in between *)
    UPDATE decrement
      (fun c => in_column boardId oldPriority c
                && (oldPosition <? position c) && (position c <=? newPosition)) db
  else if newPosition <? oldPosition then
    (* Moving up - increment positions in between *)
    UPDATE increment
      (fun c => in_column boardId oldPriority c
                && (newPosition <=? position c) && (position c <? oldPosition)) db
  else db.

Definition PUT (req : MoveRequest) (db : Table) : Response * Table :=
  match cardId req, boardId req, newPriority req, newPosition req with
  | Some cardId, Some boardId, Some newPriority, Some newPosition =>
      if falsy_number cardId || falsy_number boardId || falsy_string newPriority
      then (BadRequest, db)
      else
        (* Get the card being moved *)
        match SELECT (has_id cardId) db with
        | [] => (NotFound, db)
        | row :: _ =>
            let oldPriority := priority row in
            let oldPosition := position row in
            let db1 := shift_siblings boardId oldPriority oldPosition
                                      newPriority newPosition db in
            (* Update the moved card *)
            (Success,
             UPDATE (fun c => set_priority newPriority (set_position newPosition c))
                    (has_id cardId) db1)
        end
  | _, _, _, _ => (BadRequest, db)
  end.

(** ** The optimistic prediction: [handleMoveCard] of the board page *)

(** The array handed to [setCards]; when the card is not in the local
    array the handler returns before [setCards] and the state stays. *)
Definition handleMoveCard (cards : list Card) (cardId : Z)
    (newPriority : Priority) (newPosition : Z) : list Card :=
  match find (fun c => id c =? cardId) cards with
  | None => cards
  | Some card =>
      let oldPriority := priority card in
      let oldPosition := position card in
      let sameColumn := (oldPriority =? priority_text newPriority)%string in
      map (fun c =>
             if id c =? cardId then
               set_position newPosition (set_priority (priority_text newPriority) c)
             else if negb sameColumn && (priority c =? oldPriority)%string
                     && (oldPosition <? position c) then
               decrement c
             else if negb sameColumn && (priority c =? priority_text newPriority)%string
                     && (newPosition <=? position c) then
               increment c
             else if sameColumn && (priority c =? oldPriority)%string then
               if (oldPosition <? newPosition) && (oldPosition <? position c)
                  && (position c <=? newPosition) then
                 decrement c
               else if (newPosition <? oldPosition) && (newPosition <=? position c)
                       && (position c <? oldPosition) then
                 increment c
               else c
             else c)
          cards
  end.

(** The body the client sends with the prediction; [boardId] is the page's. *)
Definition move_request (cardId boardId : Z) (newPriority : Priority)
    (newPosition : Z) : MoveRequest :=
  mkMoveRequest (Some cardId) (Some boardId)
                (Some (priority_text newPriority)) (Some newPosition).

(** ** Store operations of [lib/db.ts] *)

(** JavaScript's [v || d] on a possibly-null number: [null] and [0] are
    both falsy. *)
Definition or_else (v : option Z) (d : Z) : Z :=
  match v with
  | None => d
  | Some n => if n =? 0 then d else n
  end.

(** [rowid] and [now] are what the engine supplies for the [AUTOINCREMENT]
    key and for the [CURRENT_TIMESTAMP] defaults. *)
Definition createCard (rowid : Z) (now : string)
    (boardId : Z) (title : string) (description assignee : option string)
    (priority : Priority) (status : string) (db : Table) : Z * Table :=
  let maxPos :=
    MAX_position
      (SELECT (in_column boardId (priority_text priority)) db) in
  let position := or_else maxPos (-1) + 1 in
  (rowid,
   INSERT (mkCard rowid boardId title description assignee
                  (priority_text priority) status position now (Some now)) db).

Definition deleteCard (id : Z) (db : Table) : Table :=
  DELETE (has_id id) db.

(** The two [CASE] expressions of [getCardsByBoard]; no branch matching is
    [NULL], which sorts before every number.  The [status] of a row is held
    as text, so [COALESCE] has nothing to replace. *)
Definition priority_rank (p : string) : option Z :=
  if (p =? "high")%string then Some 1
  else if (p =? "medium")%string then Some 2
  else if (p =? "low")%string then Some 3
  else None.

Definition status_rank (s : string) : option Z :=
  if (s =? "in_progress")%string then Some 1
  else if (s =? "not_started")%string then Some 2
  else if (s =? "done")%string then Some 3
  else None.

Definition null_first_compare (a b : option Z) : comparison :=
  match a, b with
  | None, None => Eq
  | None, Some _ => Lt
  | Some _, None => Gt
  | Some x, Some y => x ?= y
  end.

(** [ORDER BY] priority rank, status rank, position. *)
Definition card_order_leb (c d : Card) : bool :=
  match null_first_compare (priority_rank (priority c)) (priority_rank (priority d)) with
  | Lt => true
  | Gt => false
  | Eq =>
      match null_first_compare (status_rank (status c)) (status_rank (status d)) with
      | Lt => true
      | Gt => false
      | Eq => position c <=? position d
      end
  end.

Fixpoint insert_row (leb : Card -> Card -> bool) (c : Card) (l : list Card) : list Card :=
  match l with
  | [] => [c]
  | d :: rest => if leb c d then c :: d :: rest else d :: insert_row leb c rest
  end.

Definition ORDER_BY (leb : Card -> Card -> bool) (l : list Card) : list Card :=
  fold_right (insert_row leb) [] l.

Definition getCardsByBoard (boardId : Z) (db : Table) : list Card :=
  ORDER_BY card_order_leb (SELECT (fun c => board_id c =? boardId) db).

(** What [loadCards] can hold for the page of board [boardId]: rows of that
    board, under keys the engine assigns (never 0). *)
Definition snapshot_of (boardId : Z) (cards : list Card) : Prop :=
  Forall (fun c => board_id c = boardId /\ board_id c <> 0 /\ id c <> 0) cards.

(** ** The position index model *)

Definition column_group (b : Z) (p : string) (db : Table) : list Card :=
  filter (in_column b p) db.

Definition positions (l : list Card) : list Z := map position l.

(** [0; 1; ...; n-1] *)
Definition ranks (n : nat) : list Z := map Z.of_nat (seq 0 n).

(** The positions are exactly [{0,...,n-1}], each once. *)
Definition dense (ps : list Z) : Prop := Permutation ps (ranks (List.length ps)).

Definition position_invariant (db : Table) : Prop :=
  forall b p, dense (positions (column_group b p db)).

(** The checker of the model, on one list of positions and on a table. *)
Definition check_dense (ps : list Z) : bool :=
  forallb (fun k => Nat.eqb (count_occ Z.eq_dec ps k) 1) (ranks (List.length ps)).

Definition check_positions (db : Table) : bool :=
  forallb (fun c => check_dense (positions (column_group (board_id c) (priority c) db))) db.

(** ** Positions under a move *)

(** What the two cross-column statements do to one position. *)
Definition close_gap (p x : Z) : Z := if p <? x then x - 1 else x.

Definition open_slot (t x : Z) : Z := if t <=? x then x + 1 else x.

(** What the same-column statement does to one position. *)
Definition slide (p t x : Z) : Z :=
  if p <? t then (if (p <? x) && (x <=? t) then x - 1 else x)
  else if t <? p then (if (t <=? x) && (x <? p) then x + 1 else x)
  else x.

(** ** The endpoint, row by row *)

(** The sequential statements of a successful request act on every row
    independently: [sibling_shift] is the effect of the shift statements on
    one row, [move_row] that of the whole request. *)
Definition sibling_shift (boardId : Z) (oldPriority : string) (oldPosition : Z)
    (newPriority : string) (newPosition : Z) (c : Card) : Card :=
  if negb (oldPriority =? newPriority)%string then
    if in_column boardId oldPriority c && (oldPosition <? position c) then decrement c
    else if in_column boardId newPriority c && (newPosition <=? position c) then increment c
    else c
  else if oldPosition <? newPosition then
    if in_column boardId oldPriority c
       && (oldPosition <? position c) && (position c <=? newPosition)
    then decrement c else c
  else if newPosition <? oldPosition then
    if in_column boardId oldPriority c
       && (newPosition <=? position c) && (position c <? oldPosition)
    then increment c else c
  else c.

Definition move_row (cardId boardId : Z) (oldPriority : string) (oldPosition : Z)
    (newPriority : string) (newPosition : Z) (c : Card) : Card :=
  if has_id cardId c then set_priority newPriority (set_position newPosition c)
  else sibling_shift boardId oldPriority oldPosition newPriority newPosition c.

(** The first guard of the endpoint, as a test on the body. *)
Definition passes_validation (req : MoveRequest) : bool :=
  match cardId req, boardId req, newPriority req, newPosition req with
  | Some c, Some b, Some p, Some _ =>
      negb (falsy_number c || falsy_number b || falsy_string p)
  | _, _, _, _ => false
  end.

(** The cards of a column group other than the one being moved. *)
Definition siblings (moved : Card) (b : Z) (p : string) (db : Table) : list Card :=
  filter (fun c => negb (has_id (id moved) c)) (column_group b p db).

(** The effect of the shift statements on the position of a row of group
    [(b, p)], where [src] and [tgt] tell whether that group is the one
    named as source and as target. *)
Definition rank_shift (src tgt same : bool) (opos npos x : Z) : Z :=
  if negb same then
    if src && (opos <? x) then x - 1
    else if tgt && (npos <=? x) then x + 1
    else x
  else if opos <? npos then
    if src && (opos <? x) && (x <=? npos) then x - 1 else x
  else if npos <? opos then
    if src && (npos <=? x) && (x <? opos) then x + 1 else x
  else x.

(** Requests run one after the other, each on the table the previous one
    left. *)
Definition run_moves (reqs : list MoveRequest) (db : Table) : Table :=
  fold_left (fun t req => snd (PUT req t)) reqs db.

(** A sequence of moves, each for a card of the table it meets, naming the
    card's board and a position among the siblings of the target group. *)
Inductive valid_moves : Table -> list MoveRequest -> Prop :=
  | valid_moves_nil : forall db, valid_moves db []
  | valid_moves_cons :
      forall db moved targetPriority targetPosition rest,
        In moved db ->
        0 <= targetPosition
          <= Z.of_nat (List.length
                         (siblings moved (board_id moved) targetPriority db)) ->
        valid_moves
          (snd (PUT (mkMoveRequest (Some (id moved)) (Some (board_id moved))
                                   (Some targetPriority) (Some targetPosition)) db))
          rest ->
        valid_moves db
          (mkMoveRequest (Some (id moved)) (Some (board_id moved))
                         (Some targetPriority) (Some targetPosition) :: rest).

(** ** Scenarios *)

(** Sample rows: id, board, title, priority, position. *)
Definition sample (i b : Z) (name p : string) (pos : Z) : Card :=
  mkCard i b name None None p "not_started" pos "2026-01-13 09:00:00" None.

Definition one_high : Table := [sample 1 1 "A" "high" 0].

Definition two_high : Table :=
  [sample 1 1 "A" "high" 0; sample 2 1 "B" "high" 1].

Definition three_high : Table :=
  [sample 1 1 "A" "high" 0; sample 2 1 "B" "high" 1; sample 3 1 "C" "high" 2].

Definition high_and_medium : Table :=
  [sample 1 1 "A" "high" 0; sample 2 1 "B" "high" 1; sample 3 1 "X" "medium" 0].

Definition two_boards : Table :=
  [sample 1 1 "A" "high" 0; sample 2 1 "B" "high" 1;
   sample 3 2 "X" "high" 0; sample 4 2 "Y" "high" 1; sample 5 2 "Z" "medium" 0].

(** A card dropped at the end of its own column, and a request that names
    a board the card is not on. *)
Definition append_in_place : MoveRequest :=
  mkMoveRequest (Some 1) (Some 1) (Some "high") (Some 2).

Definition foreign_board_request : MoveRequest :=
  mkMoveRequest (Some 1) (Some 2) (Some "medium") (Some 0).

(** ** The moves as the specification words them *)

(** Same column: the siblings strictly after the old position up to the
    target move up by one, or those from the target up to just before the
    old position move down by one; the moved card takes the target. *)
Definition spec_same_column_move (moved : Card) (targetPosition : Z) (c : Card) : Card :=
  let oldPosition := position moved in
  if id c =? id moved then set_position targetPosition c
  else if in_column (board_id moved) (priority moved) c then
    if (oldPosition <? targetPosition)
       && (oldPosition <? position c) && (position c <=? targetPosition)
    then decrement c
    else if (targetPosition <? oldPosition)
            && (targetPosition <=? position c) && (position c <? oldPosition)
    then increment c
    else c
  else c.

(** Across columns: the source group closes the gap, the target group
    opens a slot, the moved card takes the target priority and position. *)
Definition spec_cross_column_move (moved : Card) (targetPriority : string)
    (targetPosition : Z) (c : Card) : Card :=
  if id c =? id moved then set_priority targetPriority (set_position targetPosition c)
  else if in_column (board_id moved) (priority moved) c
          && (position moved <? position c)
  then decrement c
  else if in_column (board_id moved) targetPriority c
          && (targetPosition <=? position c)
  then increment c
  else c.

(** The move when the request names a board the moved card is not on,
    written out on positions: the moved card is rewritten by id; the rows of
    the named board are renumbered as if the card had left and entered their
    columns (one down above the card's old position in the column of its old
    priority, one up from the target position in the column of the target
    priority; within one priority, one down or one up between the two
    positions); the rows of every other board, the card's own included, stay
    as they are. *)
Definition spec_foreign_board_move (moved : Card) (boardId : Z)
    (newPriority : string) (newPosition : Z) (c : Card) : Card :=
  let oldPriority := priority moved in
  let oldPosition := position moved in
  if id c =? id moved then set_priority newPriority (set_position newPosition c)
  else if board_id c =? boardId then
    if negb (oldPriority =? newPriority)%string then
      if (priority c =? oldPriority)%string && (oldPosition <? position c)
      then set_position (position c - 1) c
      else if (priority c =? newPriority)%string && (newPosition <=? position c)
      then set_position (position c + 1) c
      else c
    else if oldPosition <? newPosition then
      if (priority c =? oldPriority)%string
         && (oldPosition <? position c) && (position c <=? newPosition)
      then set_position (position c - 1) c
      else c
    else if newPosition <? oldPosition then
      if (priority c =? oldPriority)%string
         && (newPosition <=? position c) && (position c <? oldPosition)
      then set_position (position c + 1) c
      else c
    else c
  else c.

(** ** The drop handler: [handleDragEnd] of [components/Board.tsx] *)

(** The identifier of a draggable or droppable element: a card's id, a
    number, or a column's id, a string. *)
Inductive UniqueIdentifier : Type :=
  | NumberId (n : Z)
  | StringId (s : string).

(** JavaScript's [===] on two identifiers. *)
Definition same_identifier (a b : UniqueIdentifier) : bool :=
  match a, b with
  | NumberId x, NumberId y => x =? y
  | StringId s, StringId t => (s =? t)%string
  | _, _ => false
  end.

(** [s.replace(pattern, by)] with a string pattern: the first occurrence. *)
Definition replace_first (pattern by_ s : string) : string :=
  match index 0 pattern s with
  | None => s
  | Some i =>
      (substring 0 i s ++ by_
       ++ substring (i + String.length pattern)
                    (String.length s - (i + String.length pattern)) s)%string
  end.

(** [l.findIndex(f)]: the index of the first element that passes, or -1. *)
Fixpoint findIndex (f : Card -> bool) (l : list Card) : Z :=
  match l with
  | [] => -1
  | c :: rest =>
      if f c then 0
      else let i := findIndex f rest in if i =? -1 then -1 else i + 1
  end.

(** Filter out completed cards. *)
Definition activeCards (cards : list Card) : list Card :=
  filter (fun c => negb (status c =? "done")%string) cards.

(** The call [onMoveCard(activeId, targetPriority, newPosition)] the handler
    makes for a drag of card [active] that ends over [over], if it makes one. *)
Definition handleDragEnd (cards : list Card) (active : Z)
    (over : option UniqueIdentifier) : option (Z * string * Z) :=
  match over with
  | None => None
  | Some overId =>
      let activeId := active in
      (* Find the active card *)
      match find (has_id activeId) (activeCards cards) with
      | None => None
      | Some activeCard =>
          (* Determine the target priority *)
          let target : option string :=
            if same_identifier overId (StringId "high-column")
               || same_identifier overId (StringId "medium-column")
               || same_identifier overId (StringId "low-column")
            then
              (* Dropped on a column *)
              match overId with
              | StringId s => Some (replace_first "-column" "" s)
              | NumberId _ => None
              end
            else
              (* Dropped on another card *)
              match find (fun c => same_identifier (NumberId (id c)) overId)
                         (activeCards cards) with
              | None => None
              | Some overCard => Some (priority overCard)
              end in
          match target with
          | None => None
          | Some targetPriority =>
              let targetCards :=
                filter (fun c => (priority c =? targetPriority)%string)
                       (activeCards cards) in
              (* Calculate new position *)
              let newPosition :=
                if same_identifier overId (StringId (targetPriority ++ "-column")%string)
                then Z.of_nat (List.length targetCards)
                else
                  let overIndex :=
                    findIndex (fun c => same_identifier (NumberId (id c)) overId)
                              targetCards in
                  if negb (overIndex =? -1) then
                    let activeIndex := findIndex (has_id activeId) targetCards in
                    if (priority activeCard =? targetPriority)%string
                       && negb (activeIndex =? -1)
                    then (if activeIndex <? overIndex then overIndex else overIndex)
                    else overIndex
                  else 0 in
              (* Only update if something changed *)
              if negb (priority activeCard =? targetPriority)%string
                 || negb (newPosition =? position activeCard)
              then Some (activeId, targetPriority, newPosition)
              else None
          end
      end
  end.

(** ** The move endpoint on a body with a null position *)

(** [newPosition] as a JSON body can carry it: a number or [null].  [null]
    is not [undefined], so it passes the first guard. *)
Inductive JsonPosition : Type :=
  | PositionNull
  | PositionNumber (n : Z).

Record RawMoveRequest : Type := mkRawMoveRequest {
  rawCardId : option Z;
  rawBoardId : option Z;
  rawNewPriority : option string;
  rawNewPosition : option JsonPosition
}.

(** The handler on such a body.  With a number, or without the field, it is
    [PUT].  With [null] the guards and the lookup run as usual.  Across
    columns the first shift statement runs and is kept, and the second
    compares [position] with [NULL] and selects no row.  Within a column
    [null] compares as 0 in the two tests, and the statement of either branch
    has a bound that is [NULL], so it selects no row.  Then the last
    statement sets [position] to [NULL] in a [NOT NULL] column: the engine
    refuses it, nothing is rolled back, and the [catch] answers 500. *)
Definition PUT_raw (req : RawMoveRequest) (db : Table) : Response * Table :=
  match rawNewPosition req with
  | None =>
      PUT (mkMoveRequest (rawCardId req) (rawBoardId req) (rawNewPriority req) None) db
  | Some (PositionNumber n) =>
      PUT (mkMoveRequest (rawCardId req) (rawBoardId req) (rawNewPriority req) (Some n)) db
  | Some PositionNull =>
      match rawCardId req, rawBoardId req, rawNewPriority req with
      | Some cardId, Some boardId, Some newPriority =>
          if falsy_number cardId || falsy_number boardId || falsy_string newPriority
          then (BadRequest, db)
          else
            match SELECT (has_id cardId) db with
            | [] => (NotFound, db)
            | row :: _ =>
                let oldPriority := priority row in
                let oldPosition := position row in
                if negb (oldPriority =? newPriority)%string then
                  (ServerError,
                   UPDATE decrement
                     (fun c => in_column boardId oldPriority c
                               && (oldPosition <? position c)) db)
                else (ServerError, db)
            end
      | _, _, _ => (BadRequest, db)
      end
  end.

(** A cross-column request with a null position. *)
Definition null_position_request : RawMoveRequest :=
  mkRawMoveRequest (Some 1) (Some 1) (Some "medium") (Some PositionNull).

(** ** More store operations of [lib/db.ts] *)

(** [SET title = ?, description = ?, assignee = ?, priority = ?, status = ?,
    updated_at = CURRENT_TIMESTAMP] and [SET board_id = ?] on one row. *)
Definition set_details (t : string) (d a : option string) (p s u : string)
    (c : Card) : Card :=
  mkCard (id c) (board_id c) t d a p s (position c) (created_at c) (Some u).

Definition set_board (b : Z) (c : Card) : Card :=
  mkCard (id c) b (title c) (description c) (assignee c)
         (priority c) (status c) (position c) (created_at c) (updated_at c).

(** The statement [updateCard] tries first; it fails only on a table
    without the [updated_at] column, which the table here has.  [now] is
    the engine's [CURRENT_TIMESTAMP]. *)
Definition updateCard (now : string) (id : Z) (title : string)
    (description assignee : option string) (priority : Priority) (status : string)
    (db : Table) : Table :=
  UPDATE (set_details title description assignee (priority_text priority) status now)
         (has_id id) db.

Definition updateCardBoard (id boardId : Z) (db : Table) : Table :=
  UPDATE (set_board boardId) (has_id id) db.

(** A row of the [boards] table ([interface Board] of [lib/db.ts]). *)
Record Board : Type := mkBoard {
  board_key : Z;               (* id *)
  name : string;
  board_position : Z;          (* position *)
  board_created_at : string    (* created_at *)
}.

Definition MAX_board_position (rows : list Board) : option Z :=
  match rows with
  | [] => None
  | b :: rest => Some (fold_left Z.max (map board_position rest) (board_position b))
  end.

(** [rowid] and [now] are the engine's, as for [createCard]. *)
Definition createBoard (rowid : Z) (now : string) (name : string)
    (boards : list Board) : Z * list Board :=
  let maxPos := MAX_board_position boards in
  let position := or_else maxPos (-1) + 1 in
  (rowid, boards ++ [mkBoard rowid name position now]).

(** [rows[0] || null] of the rows with the id. *)
Definition getBoard (id : Z) (boards : list Board) : option Board :=
  find (fun b => board_key b =? id) boards.

(** ** What a statement leaves alone *)

(** Two rows that differ at most in priority and position. *)
Definition same_payload (c c' : Card) : Prop :=
  id c' = id c /\ board_id c' = board_id c /\ title c' = title c
  /\ description c' = description c /\ assignee c' = assignee c
  /\ status c' = status c /\ created_at c' = created_at c
  /\ updated_at c' = updated_at c.

(** Two rows that differ at most in the fields the card form edits. *)
Definition same_place (c c' : Card) : Prop :=
  id c' = id c /\ board_id c' = board_id c /\ position c' = position c
  /\ created_at c' = created_at c.


(** ** Proof steps used throughout *)

(** Every test of a conditional in the goal, by cases. *)
Ltac case_ifs :=
  repeat match goal with
         | |- context [if ?x then _ else _] => destruct x
         end.

(** The keys of a literal table are distinct. *)
Ltac distinct_keys := repeat constructor; simpl; intuition discriminate.

(** ** Dense position lists *)

Section PositionIndex.

Lemma ranks_length (n : nat) : List.length (ranks n) = n.
Proof. unfold ranks. now rewrite length_map, length_seq. Qed.

Lemma in_ranks (n : nat) (x : Z) : In x (ranks n) <-> 0 <= x < Z.of_nat n.
Proof.
  unfold ranks. rewrite in_map_iff. split.
  - intros (k & <- & Hk). apply in_seq in Hk. lia.
  - intros Hx. exists (Z.to_nat x). split; [lia|]. apply in_seq. lia.
Qed.

Lemma NoDup_ranks (n : nat) : NoDup (ranks n).
Proof.
  unfold ranks. apply Finite.Injective_map_NoDup; [|apply seq_NoDup].
  intros a b Hab. lia.
Qed.

(** No duplicates and every position below the size: the pigeonhole form. *)
Lemma dense_iff (ps : list Z) :
  dense ps <->
  NoDup ps /\ (forall x, In x ps -> 0 <= x < Z.of_nat (List.length ps)).
Proof.
  unfold dense. split.
  - intros Hp. split.
    + apply (Permutation_NoDup (Permutation_sym Hp)), NoDup_ranks.
    + intros x Hx. apply in_ranks. now apply (Permutation_in _ Hp).
  - intros [Hnd Hb]. apply NoDup_Permutation_bis; trivial.
    + now rewrite ranks_length.
    + intros x Hx. apply in_ranks. now apply Hb.
Qed.

Lemma dense_perm (ps qs : list Z) : Permutation ps qs -> dense ps -> dense qs.
Proof.
  unfold dense. intros Hp Hd.
  rewrite <- (Permutation_length Hp).
  now rewrite <- Hp.
Qed.

Lemma dense_nil : dense [].
Proof. apply perm_nil. Qed.

Lemma check_dense_spec (ps : list Z) : check_dense ps = true <-> dense ps.
Proof.
  unfold check_dense. rewrite forallb_forall. split.
  - intros Hc. apply Permutation_sym, NoDup_Permutation_bis.
    + apply NoDup_ranks.
    + now rewrite ranks_length.
    + intros k Hk. apply (count_occ_In Z.eq_dec).
      specialize (Hc k Hk). apply Nat.eqb_eq in Hc. lia.
  - intros Hd k Hk. apply Nat.eqb_eq. unfold dense in Hd.
    rewrite (Permutation_count_occ Z.eq_dec) in Hd. rewrite Hd.
    now apply NoDup_count_occ'; [apply NoDup_ranks|].
Qed.

Lemma slide_close_open (p t x : Z) :
  x <> p -> slide p t x = open_slot t (close_gap p x).
Proof.
  unfold slide, open_slot, close_gap. intros Hx.
  repeat match goal with
         | |- context [if ?b then _ else _] => destruct b eqn:?
         end; simpl in *; lia.
Qed.

Lemma dense_remove (p : Z) (rest : list Z) :
  dense (p :: rest) -> dense (map (close_gap p) rest).
Proof.
  rewrite !dense_iff. intros [Hnd Hb]. simpl in Hb.
  inversion Hnd as [|? ? Hp Hrest]; subst.
  assert (Hne : forall x, In x rest -> x <> p) by (intros x Hx ->; contradiction).
  split.
  - apply Finite.Injective_map_NoDup_in; trivial.
    intros x y Hx Hy. pose proof (Hne x Hx). pose proof (Hne y Hy).
    unfold close_gap. destruct (p <? x) eqn:?, (p <? y) eqn:?; lia.
  - intros z Hz. rewrite length_map. apply in_map_iff in Hz as (x & <- & Hx).
    pose proof (Hne x Hx). pose proof (Hb x (or_intror Hx)).
    pose proof (Hb p (or_introl eq_refl)).
    unfold close_gap. destruct (p <? x) eqn:?; lia.
Qed.

Lemma dense_insert (t : Z) (rest : list Z) :
  dense rest -> 0 <= t <= Z.of_nat (List.length rest) ->
  dense (t :: map (open_slot t) rest).
Proof.
  rewrite !dense_iff. intros [Hnd Hb] Ht. split.
  - constructor.
    + rewrite in_map_iff. intros (x & Hx & _). revert Hx.
      unfold open_slot. destruct (t <=? x) eqn:?; lia.
    + apply Finite.Injective_map_NoDup_in; trivial.
      intros x y _ _. unfold open_slot.
      destruct (t <=? x) eqn:?, (t <=? y) eqn:?; lia.
  - simpl. rewrite length_map. intros z [<-|Hz]; [lia|].
    apply in_map_iff in Hz as (x & <- & Hx). pose proof (Hb x Hx).
    unfold open_slot. destruct (t <=? x) eqn:?; lia.
Qed.

(** A card taken out of a dense list and put back at a free rank. *)
Lemma dense_slide (p t : Z) (rest : list Z) :
  dense (p :: rest) -> 0 <= t <= Z.of_nat (List.length rest) ->
  dense (t :: map (slide p t) rest).
Proof.
  intros Hd Ht.
  assert (Hne : forall x, In x rest -> x <> p).
  { apply dense_iff in Hd as [Hnd _]. inversion Hnd; subst.
    intros x Hx ->; contradiction. }
  replace (map (slide p t) rest) with (map (open_slot t) (map (close_gap p) rest)).
  - apply dense_insert; [now apply dense_remove | now rewrite length_map].
  - rewrite map_map. apply map_ext_in. intros x Hx.
    symmetry. apply slide_close_open. now apply Hne.
Qed.

End PositionIndex.

(** ** The tests of the [WHERE] clauses *)

Lemma has_id_true (i : Z) (c : Card) : has_id i c = true <-> id c = i.
Proof. unfold has_id. apply Z.eqb_eq. Qed.

Lemma has_id_false (i : Z) (c : Card) : has_id i c = false <-> id c <> i.
Proof. unfold has_id. apply Z.eqb_neq. Qed.

Lemma in_column_true (b : Z) (p : string) (c : Card) :
  in_column b p c = true <-> board_id c = b /\ priority c = p.
Proof.
  unfold in_column. now rewrite andb_true_iff, Z.eqb_eq, String.eqb_eq.
Qed.

Lemma in_column_set_position (b : Z) (p : string) (v : Z) (c : Card) :
  in_column b p (set_position v c) = in_column b p c.
Proof. reflexivity. Qed.

Lemma in_column_other (b : Z) (p q : string) (c : Card) :
  (p =? q)%string = false -> in_column b p c = true -> in_column b q c = false.
Proof.
  intros Hpq [_ <-]%in_column_true. unfold in_column.
  rewrite Hpq. apply andb_false_r.
Qed.

Lemma in_column_of_group (b : Z) (p : string) (bid : Z) (q : string) (c : Card) :
  in_column b p c = true ->
  in_column bid q c = (b =? bid) && (p =? q)%string.
Proof. intros [<- <-]%in_column_true. reflexivity. Qed.

(** The row the endpoint reads is the first one with the requested id. *)
Lemma SELECT_first (w : Card -> bool) (db : Table) :
  match SELECT w db with
  | [] => find w db = None
  | row :: _ => find w db = Some row
  end.
Proof.
  unfold SELECT. induction db as [|c db IH]; simpl; trivial.
  destruct (w c); trivial.
Qed.

(** ** The statements of one request, row by row *)

Section MoveRows.

Variables (cid bid : Z) (op : string) (opos : Z) (np : string) (npos : Z).

Lemma shift_siblings_rows (db : Table) :
  shift_siblings bid op opos np npos db = map (sibling_shift bid op opos np npos) db.
Proof.
  unfold shift_siblings, sibling_shift, UPDATE.
  destruct (op =? np)%string eqn:Hp; simpl.
  - destruct (opos <? npos); [reflexivity|].
    destruct (npos <? opos); [reflexivity|].
    symmetry. apply map_id.
  - (* the second statement never meets a row the first one changed *)
    rewrite map_map. apply map_ext. intros c.
    destruct (in_column bid op c) eqn:Hc; simpl.
    + destruct (opos <? position c); simpl.
      * unfold decrement at 1. rewrite in_column_set_position.
        now rewrite (in_column_other _ _ _ _ Hp Hc).
      * now rewrite (in_column_other _ _ _ _ Hp Hc).
    + reflexivity.
Qed.

Lemma sibling_shift_id (c : Card) :
  id (sibling_shift bid op opos np npos c) = id c.
Proof. unfold sibling_shift. now case_ifs. Qed.

Lemma sibling_shift_set (q : string) (v : Z) (c : Card) :
  set_priority q (set_position v (sibling_shift bid op opos np npos c)) =
  set_priority q (set_position v c).
Proof. unfold sibling_shift. now case_ifs. Qed.

Lemma sibling_shift_in_column (b : Z) (p : string) (c : Card) :
  in_column b p (sibling_shift bid op opos np npos c) = in_column b p c.
Proof. unfold sibling_shift. now case_ifs. Qed.

Lemma sibling_shift_position (b : Z) (p : string) (c : Card) :
  in_column b p c = true ->
  position (sibling_shift bid op opos np npos c) =
  rank_shift ((b =? bid) && (p =? op)%string) ((b =? bid) && (p =? np)%string)
             (op =? np)%string opos npos (position c).
Proof.
  intros Hc. unfold sibling_shift, rank_shift.
  rewrite (in_column_of_group _ _ bid op _ Hc), (in_column_of_group _ _ bid np _ Hc).
  now case_ifs.
Qed.

Lemma move_row_id (c : Card) :
  id (move_row cid bid op opos np npos c) = id c.
Proof.
  unfold move_row. destruct (has_id cid c); [reflexivity|apply sibling_shift_id].
Qed.

Lemma move_row_board (c : Card) :
  board_id (move_row cid bid op opos np npos c) = board_id c.
Proof. unfold move_row, sibling_shift. now case_ifs. Qed.

(** The positions of a group after the statements, when none of its rows
    is the moved card: the old positions, shifted. *)
Lemma column_positions_others (b : Z) (p : string) (others : Table) :
  (forall c, In c others -> has_id cid c = false) ->
  positions (column_group b p (map (move_row cid bid op opos np npos) others)) =
  map (rank_shift ((b =? bid) && (p =? op)%string) ((b =? bid) && (p =? np)%string)
                  (op =? np)%string opos npos)
      (positions (column_group b p others)).
Proof.
  intros Hothers. unfold positions, column_group.
  induction others as [|c others IH]; simpl; trivial.
  assert (Hc : has_id cid c = false) by (apply Hothers; now left).
  assert (IH' := IH (fun c' H => Hothers c' (or_intror H))).
  unfold move_row at 1. rewrite Hc, sibling_shift_in_column.
  destruct (in_column b p c) eqn:Hin; simpl; trivial.
  unfold move_row at 1. rewrite Hc.
  now rewrite (sibling_shift_position b p), IH'.
Qed.

End MoveRows.

(** ** The endpoint as a map over the rows *)

(** A request that passes both guards: the table after it, row by row. *)
Lemma PUT_rows (cid bid : Z) (np : string) (npos : Z) (row : Card) (db : Table) :
  cid <> 0 -> bid <> 0 -> np <> "" ->
  find (has_id cid) db = Some row ->
  PUT (mkMoveRequest (Some cid) (Some bid) (Some np) (Some npos)) db =
  (Success, map (move_row cid bid (priority row) (position row) np npos) db).
Proof.
  intros Hc Hb Hp Hrow. unfold PUT; simpl.
  unfold falsy_number, falsy_string.
  apply Z.eqb_neq in Hc, Hb. apply String.eqb_neq in Hp.
  rewrite Hc, Hb, Hp; simpl.
  pose proof (SELECT_first (has_id cid) db) as Hsel.
  destruct (SELECT (has_id cid) db) as [|r rest]; [congruence|].
  assert (r = row) by congruence; subst r.
  f_equal. rewrite shift_siblings_rows. unfold UPDATE.
  rewrite map_map. apply map_ext. intros c. unfold move_row, has_id.
  rewrite sibling_shift_id. destruct (id c =? cid); trivial.
  apply sibling_shift_set.
Qed.

(** ** Requests and the primary key *)

Lemma passes_validation_inv (req : MoveRequest) :
  passes_validation req = true ->
  exists cid bid np npos,
    req = mkMoveRequest (Some cid) (Some bid) (Some np) (Some npos)
    /\ cid <> 0 /\ bid <> 0 /\ np <> "".
Proof.
  destruct req as [[cid|] [bid|] [np|] [npos|]]; simpl; try discriminate.
  unfold passes_validation, falsy_number, falsy_string; simpl.
  rewrite negb_true_iff, !orb_false_iff, !Z.eqb_neq, String.eqb_neq.
  intros [[? ?] ?]. now exists cid, bid, np, npos.
Qed.

Lemma PUT_rejected (req : MoveRequest) (db : Table) :
  passes_validation req = false -> PUT req db = (BadRequest, db).
Proof.
  destruct req as [[cid|] [bid|] [np|] [npos|]]; try reflexivity.
  unfold passes_validation, PUT; simpl.
  now intros ->%negb_false_iff.
Qed.

Lemma PUT_not_found (cid bid : Z) (np : string) (npos : Z) (db : Table) :
  cid <> 0 -> bid <> 0 -> np <> "" ->
  find (has_id cid) db = None ->
  PUT (mkMoveRequest (Some cid) (Some bid) (Some np) (Some npos)) db = (NotFound, db).
Proof.
  intros Hc Hb Hp Hnone. unfold PUT; simpl.
  unfold falsy_number, falsy_string.
  apply Z.eqb_neq in Hc, Hb. apply String.eqb_neq in Hp.
  rewrite Hc, Hb, Hp; simpl.
  pose proof (SELECT_first (has_id cid) db) as Hsel.
  destruct (SELECT (has_id cid) db); [reflexivity | congruence].
Qed.

Lemma find_absent (cid : Z) (db : Table) :
  (forall c, In c db -> id c <> cid) -> find (has_id cid) db = None.
Proof.
  intros Habs. destruct (find (has_id cid) db) as [r|] eqn:Hf; trivial.
  apply find_some in Hf as [Hr Hid]. apply has_id_true in Hid.
  now destruct (Habs r Hr).
Qed.

(** No request changes the keys of the table or the board of a row. *)
Lemma PUT_keeps_ids (req : MoveRequest) (db : Table) :
  map id (snd (PUT req db)) = map id db.
Proof.
  destruct (passes_validation req) eqn:Hv; [|now rewrite PUT_rejected].
  apply passes_validation_inv in Hv as (cid & bid & np & npos & -> & Hc & Hb & Hp).
  destruct (find (has_id cid) db) as [row|] eqn:Hf.
  - rewrite (PUT_rows _ _ _ _ row); trivial. cbn [snd].
    rewrite map_map. apply map_ext. intros c. apply move_row_id.
  - now rewrite PUT_not_found.
Qed.

(** [id] is the primary key: two rows of a table with the same id are the
    same row, and a lookup by id reads that row. *)
Lemma primary_key (db : Table) (c c' : Card) :
  NoDup (map id db) -> In c db -> In c' db -> id c = id c' -> c = c'.
Proof.
  induction db as [|r db IH]; simpl; [easy|].
  intros Hnd Hc Hc' E. inversion Hnd as [|? ? Hr Hdb]; subst.
  destruct Hc as [->|Hc], Hc' as [->|Hc']; trivial.
  - exfalso. apply Hr. rewrite E. now apply in_map.
  - exfalso. apply Hr. rewrite <- E. now apply in_map.
  - now apply IH.
Qed.

Lemma find_by_id (db : Table) (card : Card) :
  NoDup (map id db) -> In card db -> find (has_id (id card)) db = Some card.
Proof.
  intros Hnd Hin.
  destruct (find (has_id (id card)) db) as [r|] eqn:Hf.
  - apply find_some in Hf as [Hr Hid]. apply has_id_true in Hid.
    f_equal. now apply (primary_key db).
  - apply (find_none _ _ Hf) in Hin. apply has_id_false in Hin. congruence.
Qed.

Lemma set_same (c : Card) :
  set_priority (priority c) (set_position (position c) c) = c.
Proof. now destruct c. Qed.

Lemma sibling_shift_same (b : Z) (p : string) (pos : Z) (c : Card) :
  sibling_shift b p pos p pos c = c.
Proof.
  unfold sibling_shift. rewrite String.eqb_refl, Z.ltb_irrefl. reflexivity.
Qed.

(** ** Column groups under a move *)

Lemma Permutation_filter {A : Type} (f : A -> bool) (l l' : list A) :
  Permutation l l' -> Permutation (filter f l) (filter f l').
Proof.
  induction 1 as [|x l l' _ IH|x y l|l l' l'' _ IH1 _ IH2]; simpl.
  - constructor.
  - destruct (f x); auto.
  - destruct (f x), (f y); auto. constructor.
  - now transitivity (filter f l').
Qed.

Lemma column_positions_perm (b : Z) (p : string) (db db' : Table) :
  Permutation db db' ->
  Permutation (positions (column_group b p db)) (positions (column_group b p db')).
Proof.
  intros H. unfold positions, column_group.
  now apply Permutation_map, Permutation_filter.
Qed.

(** A table is, up to the order of its rows, the moved card and the rest. *)
Lemma take_out (db : Table) (moved : Card) :
  NoDup (map id db) -> In moved db ->
  exists others,
    Permutation db (moved :: others)
    /\ forall c, In c others -> has_id (id moved) c = false.
Proof.
  intros Hnd Hin. apply in_split in Hin as (l1 & l2 & ->).
  exists (l1 ++ l2). split.
  - symmetry. apply Permutation_middle.
  - assert (Hp : Permutation (map id (l1 ++ moved :: l2)) (map id (moved :: l1 ++ l2)))
      by (apply Permutation_map; symmetry; apply Permutation_middle).
    apply (Permutation_NoDup Hp) in Hnd. simpl in Hnd.
    inversion Hnd as [|? ? Hm _]; subst.
    intros c Hc. apply has_id_false. intros E. apply Hm.
    rewrite <- E. now apply in_map.
Qed.

Lemma siblings_take_out (moved : Card) (b : Z) (p : string) (db others : Table) :
  Permutation db (moved :: others) ->
  (forall c, In c others -> has_id (id moved) c = false) ->
  List.length (siblings moved b p db) = List.length (column_group b p others).
Proof.
  intros Hp Hothers. unfold siblings, column_group.
  rewrite (Permutation_length
             (Permutation_filter _ _ _ (Permutation_filter _ _ _ Hp))).
  simpl. replace (has_id (id moved) moved) with true
    by (symmetry; now apply has_id_true).
  assert (E : filter (fun c => negb (has_id (id moved) c)) (filter (in_column b p) others)
              = filter (in_column b p) others).
  { apply forallb_filter_id, forallb_forall. intros c [Hc _]%filter_In.
    now rewrite (Hothers c Hc). }
  destruct (in_column b p moved); simpl.
  - now rewrite (proj2 (has_id_true _ _) eq_refl); simpl; rewrite E.
  - now rewrite E.
Qed.

Lemma rank_shift_elsewhere (same : bool) (opos npos x : Z) :
  rank_shift false false same opos npos x = x.
Proof.
  unfold rank_shift. destruct same; simpl; trivial.
  destruct (opos <? npos); trivial. now destruct (npos <? opos).
Qed.

Lemma rank_shift_source (opos npos x : Z) :
  rank_shift true false false opos npos x = close_gap opos x.
Proof. reflexivity. Qed.

Lemma rank_shift_target (opos npos x : Z) :
  rank_shift false true false opos npos x = open_slot npos x.
Proof. reflexivity. Qed.

Lemma rank_shift_same (opos npos x : Z) :
  rank_shift true true true opos npos x = slide opos npos x.
Proof. reflexivity. Qed.

(** One group of the table after a successful move, the table being the
    moved card followed by the other rows. *)
Lemma move_rows_dense (b : Z) (p : string) (moved : Card) (np : string) (npos : Z)
    (others : Table) :
  (forall c, In c others -> has_id (id moved) c = false) ->
  dense (positions (column_group b p (moved :: others))) ->
  0 <= npos <= Z.of_nat (List.length (column_group (board_id moved) np others)) ->
  dense (positions (column_group b p
           (map (move_row (id moved) (board_id moved) (priority moved) (position moved)
                          np npos)
                (moved :: others)))).
Proof.
  intros Hothers Hd Hpos.
  pose proof (column_positions_others (id moved) (board_id moved) (priority moved)
                (position moved) np npos b p others Hothers) as Htail.
  assert (Hsource : in_column b p moved
                    = (b =? board_id moved) && (p =? priority moved)%string).
  { unfold in_column. now rewrite Z.eqb_sym, String.eqb_sym. }
  assert (Hmoved : move_row (id moved) (board_id moved) (priority moved)
                     (position moved) np npos moved
                   = set_priority np (set_position npos moved)).
  { unfold move_row. now rewrite (proj2 (has_id_true _ _) eq_refl). }
  assert (Htarget : in_column b p (set_priority np (set_position npos moved))
                    = (b =? board_id moved) && (p =? np)%string).
  { unfold in_column. simpl. now rewrite Z.eqb_sym, String.eqb_sym. }
  unfold column_group in *. cbn [map filter] in *.
  rewrite Hmoved, Htarget. rewrite Hsource in Hd. clear Hsource Hmoved Htarget.
  destruct (Z.eqb_spec b (board_id moved)) as [->|Hb]; simpl in *.
  - destruct (String.eqb_spec p (priority moved)) as [Esrc|Hsrc];
      destruct (String.eqb_spec p np) as [Etgt|Htgt]; simpl in *.
    + (* the card stays in its column *)
      subst p np. rewrite String.eqb_refl in Htail.
      unfold positions in *. cbn [map position set_priority set_position].
      rewrite Htail.
      erewrite map_ext by (intros; apply rank_shift_same).
      apply dense_slide; trivial. now rewrite length_map.
    + (* the column the card leaves *)
      subst p. apply String.eqb_neq in Htgt. rewrite Htgt in Htail.
      unfold positions in *. rewrite Htail.
      erewrite map_ext by (intros; apply rank_shift_source).
      now apply dense_remove.
    + (* the column the card enters *)
      subst p. apply not_eq_sym, String.eqb_neq in Hsrc. rewrite Hsrc in Htail.
      unfold positions in *. cbn [map position set_priority set_position].
      rewrite Htail.
      erewrite map_ext by (intros; apply rank_shift_target).
      apply dense_insert; trivial. now rewrite length_map.
    + (* another column of the board *)
      unfold positions in *. rewrite Htail.
      erewrite map_ext by (intros; apply rank_shift_elsewhere).
      now rewrite map_id.
  - (* a column of another board *)
    unfold positions in *. rewrite Htail.
    erewrite map_ext by (intros; apply rank_shift_elsewhere).
    now rewrite map_id.
Qed.

Lemma check_positions_spec (db : Table) :
  check_positions db = true <-> position_invariant db.
Proof.
  unfold check_positions, position_invariant. rewrite forallb_forall. split.
  - intros Hc b p.
    destruct (column_group b p db) as [|c g] eqn:Hg; [apply dense_nil|].
    assert (Hin : In c (column_group b p db)) by (rewrite Hg; now left).
    apply filter_In in Hin as [Hin [<- <-]%in_column_true].
    rewrite <- Hg. now apply check_dense_spec, Hc.
  - intros Hinv c _. now apply check_dense_spec.
Qed.

(** The invariant of a literal table, by the checker. *)
Ltac by_checker := apply check_positions_spec; vm_compute; reflexivity.

(** ** The move keeps every column dense *)

(** The rows of a successful move, on a table with dense columns. *)
Lemma move_rows_keep_invariant
    (db : Table) (moved : Card) (np : string) (npos : Z) :
  NoDup (map id db) ->
  position_invariant db ->
  In moved db ->
  0 <= npos <= Z.of_nat (List.length (siblings moved (board_id moved) np db)) ->
  position_invariant
    (map (move_row (id moved) (board_id moved) (priority moved) (position moved)
                   np npos) db).
Proof.
  intros Hkey Hinv Hin Hpos b p.
  destruct (take_out db moved Hkey Hin) as (others & Hperm & Hothers).
  eapply dense_perm.
  - symmetry. apply column_positions_perm, Permutation_map, Hperm.
  - apply move_rows_dense; trivial.
    + eapply dense_perm; [apply column_positions_perm, Hperm | apply Hinv].
    + now rewrite <- (siblings_take_out moved _ _ db).
Qed.

(** X4.  Along any sequence of moves, each for a card of the table it
    meets, naming that card's board and a position among the siblings of the
    target group, every column of a table with unique ids stays dense. *)
Lemma run_moves_position_invariant (reqs : list MoveRequest) (db : Table) :
  NoDup (map id db) ->
  position_invariant db ->
  valid_moves db reqs ->
  position_invariant (run_moves reqs db).
Proof.
  intros Hkey Hinv Hvalid. revert Hkey Hinv.
  induction Hvalid as [db|db moved tp tpos rest Hin Hpos _ IH]; intros Hkey Hinv.
  - exact Hinv.
  - simpl. apply IH; [now rewrite PUT_keeps_ids|].
    set (req := mkMoveRequest _ _ _ _).
    destruct (passes_validation req) eqn:Hv; [|now rewrite PUT_rejected].
    apply passes_validation_inv in Hv as (? & ? & ? & ? & E & Hc & Hb & Hp).
    injection E as <- <- <- <-. unfold req.
    rewrite (PUT_rows _ _ _ _ moved) by auto using find_by_id.
    now apply move_rows_keep_invariant.
Qed.

(** C1, as amended.  On a table with unique ids whose every column group
    has positions exactly [{0,...,n-1}], a move request that names the moved
    card's own board and a target position in [[0, k]], where [k] counts the
    cards of the target group other than the moved card (the group size for a
    move across columns, the group size minus one for a move within a
    column), leaves every column group with positions exactly [{0,...,n-1}].
    It holds for any priority text, in particular for high, medium and low. *)
Theorem move_preserves_position_invariant
    (db : Table) (moved : Card) (targetPriority : string) (targetPosition : Z) :
  NoDup (map id db) ->
  position_invariant db ->
  In moved db ->
  0 <= targetPosition
    <= Z.of_nat (List.length (siblings moved (board_id moved) targetPriority db)) ->
  position_invariant
    (snd (PUT (mkMoveRequest (Some (id moved)) (Some (board_id moved))
                             (Some targetPriority) (Some targetPosition)) db)).
Proof.
  intros Hkey Hinv Hin Hpos.
  set (req := mkMoveRequest _ _ _ _).
  destruct (passes_validation req) eqn:Hv.
  - (* the request is accepted: the three statements run *)
    apply passes_validation_inv in Hv as (cid & bid & np & npos & E & Hc & Hb & Hp).
    injection E as <- <- <- <-.
    unfold req. rewrite (PUT_rows _ _ _ _ moved) by auto using find_by_id.
    cbn [snd]. intros b p.
    destruct (take_out db moved Hkey Hin) as (others & Hperm & Hothers).
    eapply dense_perm.
    + symmetry. apply column_positions_perm, Permutation_map, Hperm.
    + apply move_rows_dense; trivial.
      * eapply dense_perm; [apply column_positions_perm, Hperm | apply Hinv].
      * now rewrite <- (siblings_take_out moved _ _ db).
  - (* a key or a priority the guard reads as missing: nothing is written *)
    now rewrite PUT_rejected.
Qed.

Lemma move_preserves_position_invariant_witness :
  position_invariant
    (snd (PUT (mkMoveRequest (Some 1) (Some 1) (Some "high") (Some 1)) two_high)).
Proof.
  apply (move_preserves_position_invariant two_high (sample 1 1 "A" "high" 0) "high" 1).
  - distinct_keys.
  - by_checker.
  - simpl. auto.
  - vm_compute. split; discriminate.
Defined.

(** C1, counterexample.  Dropping card A of [high: A:0, B:1] at the end of
    its own column asks for position 2, the size of the target group; the
    request is accepted and leaves positions [{0, 2}]. *)
Lemma same_column_append_leaves_gap :
  position_invariant two_high
  /\ In (sample 1 1 "A" "high" 0) two_high
  /\ is_valid_priority "high" = true
  /\ 0 <= 2 <= Z.of_nat (List.length (column_group 1 "high" two_high))
  /\ PUT append_in_place two_high
     = (Success, [sample 1 1 "A" "high" 2; sample 2 1 "B" "high" 0])
  /\ ~ position_invariant (snd (PUT append_in_place two_high)).
Proof.
  repeat split.
  - by_checker.
  - simpl. auto.
  - vm_compute. discriminate.
  - vm_compute. discriminate.
  - intros H. apply check_positions_spec in H. vm_compute in H. discriminate.
Qed.

(** ** The two cases of the move, as the specification words them *)

(** C2.  A move within a column, requested for the moved card's board on a
    table with unique ids: with the old position before the target, exactly
    the siblings with position in (old, target] are decremented; with the old
    position after the target, exactly those in [target, old) are incremented;
    the moved card takes the target position and every other row is unchanged.
    On [A:0, B:1, C:2], moving B to position 0 gives [B:0, A:1, C:2], the
    rows as stored and then as [getCardsByBoard] lists them. *)
Theorem same_column_move_shifts (db : Table) (moved : Card) (targetPosition : Z) :
  NoDup (map id db) ->
  In moved db ->
  id moved <> 0 -> board_id moved <> 0 -> priority moved <> "" ->
  PUT (mkMoveRequest (Some (id moved)) (Some (board_id moved))
                     (Some (priority moved)) (Some targetPosition)) db
  = (Success, map (spec_same_column_move moved targetPosition) db)
  /\ PUT (mkMoveRequest (Some 2) (Some 1) (Some "high") (Some 0)) three_high
     = (Success,
        [sample 1 1 "A" "high" 1; sample 2 1 "B" "high" 0; sample 3 1 "C" "high" 2])
  /\ getCardsByBoard 1
       (snd (PUT (mkMoveRequest (Some 2) (Some 1) (Some "high") (Some 0)) three_high))
     = [sample 2 1 "B" "high" 0; sample 1 1 "A" "high" 1; sample 3 1 "C" "high" 2].
Proof.
  intros Hkey Hin Hc Hb Hp. split; [|split; reflexivity].
  rewrite (PUT_rows _ _ _ _ moved) by auto using find_by_id.
  f_equal. apply map_ext_in. intros c Hcdb.
  unfold move_row, spec_same_column_move, has_id.
  destruct (Z.eqb_spec (id c) (id moved)) as [E|_].
  - rewrite (primary_key db c moved Hkey Hcdb Hin E). now destruct moved.
  - unfold sibling_shift. rewrite String.eqb_refl. cbn [negb].
    destruct (position moved <? targetPosition) eqn:Hdown;
      destruct (targetPosition <? position moved) eqn:Hup;
      destruct (in_column (board_id moved) (priority moved) c);
      cbn [andb]; trivial.
    apply Z.ltb_lt in Hdown, Hup. lia.
Qed.

Lemma same_column_move_shifts_witness :
  PUT (mkMoveRequest (Some 1) (Some 1) (Some "high") (Some 2)) three_high
  = (Success,
     [sample 1 1 "A" "high" 2; sample 2 1 "B" "high" 0; sample 3 1 "C" "high" 1]).
Proof.
  apply (proj1 (same_column_move_shifts three_high (sample 1 1 "A" "high" 0) 2
                  ltac:(distinct_keys)
                  ltac:(simpl; auto)
                  ltac:(simpl; discriminate) ltac:(simpl; discriminate)
                  ltac:(simpl; discriminate))).
Defined.

(** C3.  A move across columns, requested for the moved card's board on a
    table with unique ids: in the source group exactly the siblings with
    position above the old one are decremented, in the target group exactly
    those with position at or above the target are incremented, the moved
    card takes the target priority and position, every other row is unchanged.
    From [high: A:0, B:1] and [medium: X:0], moving A to medium at position 1
    gives [high: B:0] and [medium: X:0, A:1], the rows as stored and then as
    [getCardsByBoard] lists them. *)
Theorem cross_column_move_shifts
    (db : Table) (moved : Card) (targetPriority : string) (targetPosition : Z) :
  NoDup (map id db) ->
  In moved db ->
  id moved <> 0 -> board_id moved <> 0 -> targetPriority <> "" ->
  priority moved <> targetPriority ->
  PUT (mkMoveRequest (Some (id moved)) (Some (board_id moved))
                     (Some targetPriority) (Some targetPosition)) db
  = (Success, map (spec_cross_column_move moved targetPriority targetPosition) db)
  /\ PUT (mkMoveRequest (Some 1) (Some 1) (Some "medium") (Some 1)) high_and_medium
     = (Success,
        [sample 1 1 "A" "medium" 1; sample 2 1 "B" "high" 0; sample 3 1 "X" "medium" 0])
  /\ getCardsByBoard 1
       (snd (PUT (mkMoveRequest (Some 1) (Some 1) (Some "medium") (Some 1))
                 high_and_medium))
     = [sample 2 1 "B" "high" 0; sample 3 1 "X" "medium" 0; sample 1 1 "A" "medium" 1].
Proof.
  intros Hkey Hin Hc Hb Hp Hcross. split; [|split; reflexivity].
  rewrite (PUT_rows _ _ _ _ moved) by auto using find_by_id.
  f_equal. apply map_ext. intros c.
  unfold move_row, spec_cross_column_move, has_id, sibling_shift.
  apply String.eqb_neq in Hcross. rewrite Hcross. reflexivity.
Qed.

Lemma cross_column_move_shifts_witness :
  PUT (mkMoveRequest (Some 1) (Some 1) (Some "medium") (Some 0)) high_and_medium
  = (Success,
     [sample 1 1 "A" "medium" 0; sample 2 1 "B" "high" 0; sample 3 1 "X" "medium" 1]).
Proof.
  apply (proj1 (cross_column_move_shifts high_and_medium (sample 1 1 "A" "high" 0)
                  "medium" 0
                  ltac:(distinct_keys)
                  ltac:(simpl; auto)
                  ltac:(simpl; discriminate) ltac:(simpl; discriminate)
                  ltac:(discriminate) ltac:(simpl; discriminate))).
Defined.

(** ** Rejected requests *)

(** C5.  A request with its four fields present whose [cardId] is the id
    of no row is answered with the not-found error, and the table after it
    is the table before it. *)
Theorem move_unknown_card_not_found (req : MoveRequest) (db : Table) :
  passes_validation req = true ->
  (forall c, In c db -> cardId req <> Some (id c)) ->
  PUT req db = (NotFound, db).
Proof.
  intros Hv Habs.
  apply passes_validation_inv in Hv as (cid & bid & np & npos & -> & Hc & Hb & Hp).
  apply PUT_not_found; trivial. apply find_absent.
  intros c Hin E. apply (Habs c Hin). simpl. now rewrite E.
Qed.

Lemma move_unknown_card_not_found_witness :
  PUT (mkMoveRequest (Some 9) (Some 1) (Some "low") (Some 0)) three_high
  = (NotFound, three_high).
Proof.
  apply move_unknown_card_not_found.
  - reflexivity.
  - simpl. intros c [<-|[<-|[<-|[]]]]; discriminate.
Defined.

(** C6, as amended.  A request in which [cardId], [boardId] or
    [newPriority] is missing or falsy (0, the empty string), or
    [newPosition] is missing, is rejected with the 400 error before any
    statement runs: the table is unchanged. *)
Theorem move_missing_field_rejected (req : MoveRequest) (db : Table) :
  passes_validation req = false -> PUT req db = (BadRequest, db).
Proof.
  destruct req as [[cid|] [bid|] [np|] [npos|]]; try reflexivity.
  unfold passes_validation, PUT. cbn [cardId boardId newPriority newPosition].
  intros Hguard. apply negb_false_iff in Hguard.
  now rewrite Hguard.
Qed.

Lemma move_missing_field_rejected_witness :
  PUT (mkMoveRequest (Some 1) (Some 1) None (Some 0)) two_high
  = (BadRequest, two_high).
Proof.
  apply move_missing_field_rejected. reflexivity.
Defined.

(** C6, counterexample.  A priority outside high, medium and low, and a
    position beyond the size of the target group, are both accepted and
    written. *)
Lemma invalid_target_accepted :
  is_valid_priority "urgent" = false
  /\ PUT (mkMoveRequest (Some 1) (Some 1) (Some "urgent") (Some 0)) two_high
     = (Success, [sample 1 1 "A" "urgent" 0; sample 2 1 "B" "high" 0])
  /\ ~ (0 <= 7 <= Z.of_nat (List.length (column_group 1 "medium" two_high)))
  /\ PUT (mkMoveRequest (Some 1) (Some 1) (Some "medium") (Some 7)) two_high
     = (Success, [sample 1 1 "A" "medium" 7; sample 2 1 "B" "high" 0]).
Proof.
  repeat split; try reflexivity.
  simpl. lia.
Qed.

(** ** The move to the same place *)

(** C7.  On a table with unique ids, a request that targets the card's own
    current priority and position leaves the table as it was: every row,
    the moved one included, keeps every field. *)
Theorem move_to_own_place_is_noop (db : Table) (card : Card) (board : option Z) :
  NoDup (map id db) ->
  In card db ->
  snd (PUT (mkMoveRequest (Some (id card)) board
                          (Some (priority card)) (Some (position card))) db) = db.
Proof.
  intros Hkey Hin.
  set (req := mkMoveRequest _ _ _ _).
  destruct (passes_validation req) eqn:Hv.
  - apply passes_validation_inv in Hv as (cid & bid & np & npos & E & Hc & Hb & Hp).
    unfold req in *. injection E as <- -> <- <-.
    rewrite (PUT_rows _ _ _ _ card) by auto using find_by_id.
    cbn [snd]. rewrite <- (map_id db) at 2. apply map_ext_in.
    intros c Hcdb. unfold move_row.
    destruct (has_id (id card) c) eqn:Hid.
    + apply has_id_true in Hid.
      rewrite (primary_key db c card Hkey Hcdb Hin Hid). apply set_same.
    + apply sibling_shift_same.
  - now rewrite PUT_rejected.
Qed.

Lemma move_to_own_place_is_noop_witness :
  snd (PUT (mkMoveRequest (Some 2) (Some 1) (Some "high") (Some 1)) three_high)
  = three_high.
Proof.
  apply (move_to_own_place_is_noop three_high (sample 2 1 "B" "high" 1) (Some 1)).
  - distinct_keys.
  - simpl. auto.
Defined.

(** ** The lists a page holds *)

Lemma insert_row_In (leb : Card -> Card -> bool) (c x : Card) (l : list Card) :
  In x (insert_row leb c l) <-> x = c \/ In x l.
Proof.
  induction l as [|d l IH]; simpl.
  - intuition.
  - destruct (leb c d); simpl; [intuition|]. rewrite IH. intuition.
Qed.

Lemma ORDER_BY_In (leb : Card -> Card -> bool) (x : Card) (l : list Card) :
  In x (ORDER_BY leb l) <-> In x l.
Proof.
  unfold ORDER_BY. induction l as [|c l IH]; simpl; [tauto|].
  rewrite insert_row_In, IH. intuition.
Qed.

(** The list [loadCards] receives, and every prediction made from such a
    list, is a list a page can hold. *)
Lemma getCardsByBoard_snapshot (boardId : Z) (db : Table) :
  boardId <> 0 ->
  Forall (fun c => id c <> 0) db ->
  snapshot_of boardId (getCardsByBoard boardId db).
Proof.
  intros Hb Hids. unfold snapshot_of, getCardsByBoard, SELECT.
  rewrite Forall_forall in *. intros c Hc.
  apply ORDER_BY_In, filter_In in Hc as [Hc Hboard]. apply Z.eqb_eq in Hboard.
  repeat split; [assumption | congruence | now apply Hids].
Qed.

Lemma handleMoveCard_snapshot (boardId : Z) (cards : list Card) (cardId : Z)
    (newPriority : Priority) (newPosition : Z) :
  snapshot_of boardId cards ->
  snapshot_of boardId (handleMoveCard cards cardId newPriority newPosition).
Proof.
  intros Hsnap. unfold handleMoveCard.
  destruct (find _ cards) as [card|]; trivial.
  unfold snapshot_of in *. rewrite Forall_forall in *.
  intros c' (c & <- & Hc)%in_map_iff. specialize (Hsnap c Hc).
  case_ifs; exact Hsnap.
Qed.

(** ** The prediction and the endpoint *)

Lemma priority_text_nonempty (p : Priority) : priority_text p <> "".
Proof. destruct p; discriminate. Qed.

(** C4.  On the card list of a board page, for every move the page can ask
    for, the array predicted by [handleMoveCard] is the table the endpoint
    leaves when it runs the page's request on that list: the same rows in the
    same order, so every card has the same priority and position in both. *)
Theorem prediction_matches_endpoint
    (boardId : Z) (cards : list Card) (cardId : Z) (newPriority : Priority)
    (newPosition : Z) :
  snapshot_of boardId cards ->
  handleMoveCard cards cardId newPriority newPosition
  = snd (PUT (move_request cardId boardId newPriority newPosition) cards).
Proof.
  intros Hsnap. unfold snapshot_of in Hsnap. rewrite Forall_forall in Hsnap.
  unfold handleMoveCard, move_request.
  change (fun c : Card => id c =? cardId) with (has_id cardId).
  destruct (find (has_id cardId) cards) as [card|] eqn:Hfind.
  - pose proof (find_some _ _ Hfind) as [Hin Hid]. apply has_id_true in Hid.
    destruct (Hsnap card Hin) as (Hboard & Hb & Hc).
    rewrite (PUT_rows _ _ _ _ card); trivial;
      [|congruence|congruence|apply priority_text_nonempty].
    cbn [snd]. apply map_ext_in. intros c Hcin.
    destruct (Hsnap c Hcin) as (Hcb & _ & _).
    unfold move_row, sibling_shift, has_id, in_column. rewrite Hcb, Z.eqb_refl.
    destruct (id c =? cardId); [reflexivity|].
    destruct (priority card =? priority_text newPriority)%string; cbn [negb andb].
    + destruct (priority c =? priority card)%string; cbn [andb];
        destruct (position card <? newPosition) eqn:Hdown;
        destruct (newPosition <? position card) eqn:Hup; cbn [andb]; trivial;
        destruct (_ && _); trivial.
      apply Z.ltb_lt in Hdown, Hup. lia.
    + reflexivity.
  - destruct (Z.eq_dec cardId 0) as [->|Hc]; [reflexivity|].
    destruct (Z.eq_dec boardId 0) as [->|Hb];
      [unfold PUT; simpl; now rewrite orb_true_r|].
    rewrite PUT_not_found; trivial. apply priority_text_nonempty.
Qed.

Lemma prediction_matches_endpoint_witness :
  handleMoveCard high_and_medium 1 medium 0
  = [sample 1 1 "A" "medium" 0; sample 2 1 "B" "high" 0; sample 3 1 "X" "medium" 1]
  /\ snd (PUT (move_request 1 1 medium 0) high_and_medium)
     = [sample 1 1 "A" "medium" 0; sample 2 1 "B" "high" 0; sample 3 1 "X" "medium" 1].
Proof.
  assert (H : snapshot_of 1 high_and_medium).
  { repeat constructor; discriminate. }
  rewrite <- (prediction_matches_endpoint 1 high_and_medium 1 medium 0 H).
  split; reflexivity.
Defined.

(** ** A request that names another board *)

(** C10.  The endpoint reads the moved card by id alone and scopes the
    shifts by the board of the request.  When that board is not the card's,
    the request still succeeds; the shifts renumber the named board's rows,
    none of which is the moved card (one down above the card's old position
    in the column of its old priority, one up from the target position in the
    target column); rows of the card's own board other than the card are
    untouched; and the invariant can be lost.  On board 1 with [high: A:0,
    B:1] and board 2 with [high: X:0, Y:1] and [medium: Z:0], moving A to
    medium at 0 while naming board 2 leaves board 1 with [high: B:1] and
    [medium: A:0], and board 2 with [high: X:0, Y:0] and [medium: Z:1];
    moving A to position 1 within high while naming board 2 leaves A and B
    both at 1 on board 1 and moves Y down to 0 on board 2; moving Y to
    position 0 within high while naming board 1 moves A up to 1 on board 1 and
    leaves X and Y both at 0 on board 2. *)
Theorem move_ignores_card_board
    (db : Table) (moved : Card) (boardId : Z) (newPriority : string) (newPosition : Z) :
  NoDup (map id db) ->
  In moved db ->
  id moved <> 0 -> boardId <> 0 -> newPriority <> "" ->
  board_id moved <> boardId ->
  PUT (mkMoveRequest (Some (id moved)) (Some boardId)
                     (Some newPriority) (Some newPosition)) db
  = (Success, map (spec_foreign_board_move moved boardId newPriority newPosition) db)
  /\ (forall p, ~ In moved (column_group boardId p db))
  /\ (position_invariant two_boards
      /\ PUT foreign_board_request two_boards
         = (Success, [sample 1 1 "A" "medium" 0; sample 2 1 "B" "high" 1;
                      sample 3 2 "X" "high" 0; sample 4 2 "Y" "high" 0;
                      sample 5 2 "Z" "medium" 1])
      /\ ~ position_invariant (snd (PUT foreign_board_request two_boards))
      /\ PUT (mkMoveRequest (Some 1) (Some 2) (Some "high") (Some 1)) two_boards
         = (Success, [sample 1 1 "A" "high" 1; sample 2 1 "B" "high" 1;
                      sample 3 2 "X" "high" 0; sample 4 2 "Y" "high" 0;
                      sample 5 2 "Z" "medium" 0])
      /\ PUT (mkMoveRequest (Some 4) (Some 1) (Some "high") (Some 0)) two_boards
         = (Success, [sample 1 1 "A" "high" 1; sample 2 1 "B" "high" 1;
                      sample 3 2 "X" "high" 0; sample 4 2 "Y" "high" 0;
                      sample 5 2 "Z" "medium" 0])).
Proof.
  intros Hkey Hin Hc Hb Hp Hboard. split; [|split; [|repeat split]].
  - rewrite (PUT_rows _ _ _ _ moved) by auto using find_by_id.
    f_equal. apply map_ext. intros c.
    unfold move_row, spec_foreign_board_move, has_id.
    destruct (id c =? id moved); trivial.
    unfold sibling_shift, in_column, decrement, increment.
    destruct (board_id c =? boardId); cbn [andb]; [reflexivity|].
    destruct (negb _); trivial.
    destruct (_ <? _); trivial. now destruct (_ <? _).
  - intros p [_ [Hcol _]%in_column_true]%filter_In. contradiction.
  - by_checker.
  - intros H. apply check_positions_spec in H. vm_compute in H. discriminate.
Qed.

Lemma move_ignores_card_board_witness :
  PUT foreign_board_request two_boards
  = (Success, [sample 1 1 "A" "medium" 0; sample 2 1 "B" "high" 1;
               sample 3 2 "X" "high" 0; sample 4 2 "Y" "high" 0;
               sample 5 2 "Z" "medium" 1]).
Proof.
  etransitivity.
  - apply (proj1 (move_ignores_card_board two_boards (sample 1 1 "A" "high" 0)
                    2 "medium" 0
                    ltac:(distinct_keys)
                    ltac:(simpl; auto)
                    ltac:(simpl; discriminate) ltac:(discriminate)
                    ltac:(discriminate) ltac:(simpl; discriminate))).
  - reflexivity.
Defined.

(** ** Creating and deleting cards *)

Lemma fold_max_spec (l : list Z) (a : Z) :
  (fold_left Z.max l a = a \/ In (fold_left Z.max l a) l)
  /\ a <= fold_left Z.max l a
  /\ (forall x, In x l -> x <= fold_left Z.max l a).
Proof.
  revert a. induction l as [|y l IH]; intros a; simpl.
  - repeat split; [now left | lia | easy].
  - destruct (IH (Z.max a y)) as (Hin & Hle & Hall). repeat split.
    + destruct Hin as [E|Hin]; [|now right; right].
      rewrite E. destruct (Z.max_spec a y) as [[_ ->]|[_ ->]]; auto.
    + lia.
    + intros x [<-|Hx]; [lia | now apply Hall].
Qed.

(** [MAX(position)] over a dense group of [n] rows is [n - 1]. *)
Lemma MAX_position_dense (rows : list Card) :
  dense (positions rows) ->
  MAX_position rows
  = match rows with
    | [] => None
    | _ :: _ => Some (Z.of_nat (List.length rows) - 1)
    end.
Proof.
  destruct rows as [|c rest]; trivial.
  intros Hd. unfold MAX_position. f_equal.
  pose proof (fold_max_spec (map position rest) (position c)) as (Hin & Hle & Hall).
  set (m := fold_left Z.max (map position rest) (position c)) in *.
  assert (Hlast : In (Z.of_nat (List.length (c :: rest)) - 1) (positions (c :: rest))).
  { apply (Permutation_in _ (Permutation_sym Hd)), in_ranks.
    unfold positions. rewrite length_map. simpl List.length. lia. }
  apply dense_iff in Hd as [_ Hb].
  assert (Hm : In m (positions (c :: rest))).
  { simpl. destruct Hin as [E|Hin]; [left; now rewrite E | now right]. }
  apply Hb in Hm. unfold positions in Hm. rewrite length_map in Hm.
  remember (Z.of_nat (List.length (c :: rest)) - 1) as k eqn:Hk.
  unfold positions in Hlast. cbn [map In] in Hlast.
  destruct Hlast as [E|Hlast]; [lia|].
  apply Hall in Hlast. lia.
Qed.

(** The position [createCard] gives a card entering a dense group of [n]
    rows: [n], except on a group of one row, where the maximum 0 is read as
    missing by [||] and the new card is given 0 again. *)
Lemma createCard_position (rowid : Z) (now : string) (b : Z) (t : string)
    (d a : option string) (p : Priority) (s : string) (db : Table) :
  dense (positions (column_group b (priority_text p) db)) ->
  createCard rowid now b t d a p s db
  = (rowid,
     db ++ [mkCard rowid b t d a (priority_text p) s
              (let n := Z.of_nat (List.length (column_group b (priority_text p) db)) in
               if n =? 1 then 0 else n)
              now (Some now)]).
Proof.
  intros Hd. unfold createCard, INSERT, SELECT.
  fold (column_group b (priority_text p) db).
  rewrite (MAX_position_dense _ Hd).
  destruct (column_group b (priority_text p) db) as [|c rest]; [reflexivity|].
  cbv zeta. unfold or_else.
  set (n := Z.of_nat (List.length (c :: rest))).
  replace ((if n - 1 =? 0 then -1 else n - 1) + 1) with (if n =? 1 then 0 else n);
    [reflexivity|].
  destruct (Z.eqb_spec (n - 1) 0), (Z.eqb_spec n 1); lia.
Qed.

(** C8, at the failing input.  A card created in a column that holds one
    card, at position 0, is given position 0 as well, not 1: the two cards
    of the group then share a position. *)
Theorem createCard_second_card_collides :
  position_invariant one_high
  /\ createCard 2 "2026-01-13 09:05:00" 1 "B" None None high "not_started" one_high
     = (2, [sample 1 1 "A" "high" 0;
            mkCard 2 1 "B" None None "high" "not_started" 0
                   "2026-01-13 09:05:00" (Some "2026-01-13 09:05:00")])
  /\ ~ position_invariant
         (snd (createCard 2 "2026-01-13 09:05:00" 1 "B" None None high
                          "not_started" one_high)).
Proof.
  repeat split.
  - by_checker.
  - intros H. apply check_positions_spec in H. vm_compute in H. discriminate.
Qed.

Lemma dense_drop_last (p : Z) (rest : list Z) :
  dense (p :: rest) -> p = Z.of_nat (List.length rest) -> dense rest.
Proof.
  rewrite !dense_iff. intros [Hnd Hb] ->. inversion Hnd as [|? ? Hp Hrest]; subst.
  split; trivial. intros x Hx.
  pose proof (Hb x (or_intror Hx)) as Hx'. simpl List.length in Hx'.
  assert (x <> Z.of_nat (List.length rest)) by (intros ->; contradiction).
  lia.
Qed.

Lemma deleteCard_take_out (db others : Table) (card : Card) :
  Permutation db (card :: others) ->
  (forall c, In c others -> has_id (id card) c = false) ->
  Permutation (deleteCard (id card) db) others.
Proof.
  intros Hp Hothers. unfold deleteCard, DELETE.
  rewrite (Permutation_filter _ _ _ Hp). simpl.
  rewrite (proj2 (has_id_true _ _) eq_refl). simpl.
  rewrite forallb_filter_id; trivial.
  apply forallb_forall. intros c Hc. now rewrite (Hothers c Hc).
Qed.

(** C9, as amended.  On a table with unique ids whose columns are dense,
    [deleteCard] removes the card and leaves every other row as it was: no
    sibling's position changes, the positions of the card's group are the old
    ones without the deleted card's, and the columns are dense again when the
    deleted card was the last of its group. *)
Theorem deleteCard_keeps_sibling_positions (db : Table) (card : Card) :
  NoDup (map id db) ->
  In card db ->
  position_invariant db ->
  (forall c, In c (deleteCard (id card) db) <-> In c db /\ c <> card)
  /\ (forall b p,
        Permutation (positions (column_group b p db))
                    ((if in_column b p card then [position card] else [])
                     ++ positions (column_group b p (deleteCard (id card) db))))
  /\ (position card
      = Z.of_nat (List.length (siblings card (board_id card) (priority card) db)) ->
      position_invariant (deleteCard (id card) db)).
Proof.
  intros Hkey Hin Hinv.
  destruct (take_out db card Hkey Hin) as (others & Hperm & Hothers).
  pose proof (deleteCard_take_out db others card Hperm Hothers) as Hdel.
  split; [|split].
  - intros c. unfold deleteCard, DELETE. rewrite filter_In, negb_true_iff, has_id_false.
    split; intros [Hc Hne]; split; trivial.
    + intros ->. now apply Hne.
    + intros E. apply Hne. now apply (primary_key db).
  - intros b p.
    rewrite (column_positions_perm b p _ _ Hperm), (column_positions_perm b p _ _ Hdel).
    unfold column_group. simpl. now destruct (in_column b p card).
  - intros Hlast b p.
    eapply dense_perm; [symmetry; apply column_positions_perm, Hdel|].
    pose proof (dense_perm _ _ (column_positions_perm b p _ _ Hperm) (Hinv b p)) as Hd.
    unfold column_group in Hd. cbn [filter] in Hd.
    destruct (in_column b p card) eqn:Hcol; [|exact Hd].
    apply in_column_true in Hcol as [<- <-].
    apply (dense_drop_last (position card)
             (positions (column_group (board_id card) (priority card) others)));
      [exact Hd|].
    rewrite Hlast, (siblings_take_out card _ _ db others Hperm Hothers).
    unfold positions. now rewrite length_map.
Qed.

Lemma deleteCard_keeps_sibling_positions_witness :
  position_invariant (deleteCard 3 three_high).
Proof.
  apply (deleteCard_keeps_sibling_positions three_high (sample 3 1 "C" "high" 2)).
  - distinct_keys.
  - simpl. auto.
  - by_checker.
  - reflexivity.
Defined.

(** C9, counterexample.  Deleting A from [A:0, B:1, C:2] leaves B at 1 and
    C at 2: no sibling is decremented and position 0 is left empty. *)
Lemma deleteCard_leaves_gap :
  position_invariant three_high
  /\ deleteCard 1 three_high = [sample 2 1 "B" "high" 1; sample 3 1 "C" "high" 2]
  /\ ~ position_invariant (deleteCard 1 three_high).
Proof.
  repeat split.
  - by_checker.
  - intros H. apply check_positions_spec in H. vm_compute in H. discriminate.
Qed.

(** ** What a move leaves alone *)

Lemma Forall2_map_right {A B : Type} (R : A -> B -> Prop) (f : A -> B) (l : list A) :
  (forall x, In x l -> R x (f x)) -> Forall2 R l (map f l).
Proof.
  induction l as [|x l IH]; simpl; constructor.
  - apply H. now left.
  - apply IH. intros y Hy. apply H. now right.
Qed.

Lemma Forall2_same {A : Type} (R : A -> A -> Prop) (l : list A) :
  (forall x, R x x) -> Forall2 R l l.
Proof. intros Hrefl. induction l; constructor; auto. Qed.

(** Every answer of the endpoint is the rejection, the not-found answer or
    the rows of a successful move. *)
Lemma PUT_cases (req : MoveRequest) (db : Table) :
  snd (PUT req db) = db
  \/ exists cid bid np npos row,
       req = mkMoveRequest (Some cid) (Some bid) (Some np) (Some npos)
       /\ find (has_id cid) db = Some row
       /\ snd (PUT req db)
          = map (move_row cid bid (priority row) (position row) np npos) db.
Proof.
  destruct (passes_validation req) eqn:Hv; [|left; now rewrite PUT_rejected].
  apply passes_validation_inv in Hv as (cid & bid & np & npos & -> & Hc & Hb & Hp).
  destruct (find (has_id cid) db) as [row|] eqn:Hf.
  - right. exists cid, bid, np, npos, row. repeat split; trivial.
    now rewrite (PUT_rows _ _ _ _ row).
  - left. now rewrite PUT_not_found.
Qed.

(** X1.  Whatever the request, the endpoint adds no row, removes none and
    keeps their order, and changes no field of any row other than priority
    and position: ids, boards, titles, descriptions, assignees, statuses and
    both timestamps are as before. *)
Theorem PUT_keeps_payload (req : MoveRequest) (db : Table) :
  Forall2 same_payload db (snd (PUT req db)).
Proof.
  destruct (PUT_cases req db) as [->|(cid & bid & np & npos & row & _ & _ & ->)].
  - apply Forall2_same. intros c. now repeat split.
  - apply Forall2_map_right. intros c _.
    unfold move_row, sibling_shift. case_ifs; now repeat split.
Qed.

(** X2.  Whatever the request, every row other than the requested card
    keeps its priority and moves by at most one position. *)
Theorem PUT_shifts_other_rows_by_one (req : MoveRequest) (db : Table) :
  Forall2 (fun c c' =>
             cardId req <> Some (id c) ->
             priority c' = priority c /\ -1 <= position c' - position c <= 1)
          db (snd (PUT req db)).
Proof.
  destruct (PUT_cases req db) as [->|(cid & bid & np & npos & row & -> & _ & ->)].
  - apply Forall2_same. intros c _. split; [reflexivity|lia].
  - apply Forall2_map_right. intros c _ Hother. cbn [cardId] in Hother.
    unfold move_row. destruct (has_id cid c) eqn:Hid.
    + apply has_id_true in Hid. congruence.
    + unfold sibling_shift. case_ifs; cbn; split; trivial; lia.
Qed.

Lemma PUT_shifts_other_rows_by_one_witness :
  Forall2 (fun c c' =>
             Some 2 <> Some (id c) ->
             priority c' = priority c /\ -1 <= position c' - position c <= 1)
          three_high
          (snd (PUT (mkMoveRequest (Some 2) (Some 1) (Some "high") (Some 0)) three_high)).
Proof.
  exact (PUT_shifts_other_rows_by_one
           (mkMoveRequest (Some 2) (Some 1) (Some "high") (Some 0)) three_high).
Defined.

(** ** A move and the move back *)

Lemma NoDup_map_injective {A B : Type} (f : A -> B) (l : list A) (x y : A) :
  NoDup (map f l) -> In x l -> In y l -> f x = f y -> x = y.
Proof.
  induction l as [|a l IH]; simpl; [easy|].
  intros Hnd Hx Hy E. inversion Hnd as [|? ? Ha Hl]; subst.
  destruct Hx as [->|Hx], Hy as [->|Hy]; trivial.
  - exfalso. apply Ha. rewrite E. now apply in_map.
  - exfalso. apply Ha. rewrite <- E. now apply in_map.
  - now apply IH.
Qed.

(** In a dense column no two rows share a position. *)
Lemma position_invariant_unique (db : Table) (c c' : Card) :
  position_invariant db ->
  In c db -> In c' db ->
  board_id c = board_id c' -> priority c = priority c' -> position c = position c' ->
  c = c'.
Proof.
  intros Hinv Hc Hc' Hb Hp Hpos.
  destruct (proj1 (dense_iff _) (Hinv (board_id c) (priority c))) as [Hnd _].
  apply (NoDup_map_injective position (column_group (board_id c) (priority c) db));
    trivial; apply filter_In; split; trivial; apply in_column_true; auto.
Qed.

(** The shift statements change the position of a row and nothing else. *)
Lemma sibling_shift_as_rank (b : Z) (op : string) (opos : Z) (np : string) (npos : Z)
    (c : Card) :
  sibling_shift b op opos np npos c
  = set_position
      (rank_shift (in_column b op c) (in_column b np c) (op =? np)%string
                  opos npos (position c)) c.
Proof.
  unfold sibling_shift, rank_shift.
  destruct (in_column b op c), (in_column b np c), (op =? np)%string; cbn [negb andb];
    case_ifs; try reflexivity; now destruct c.
Qed.

(** Shifting back, on positions. *)
Lemma rank_shift_back (src tgt same : bool) (opos npos pos : Z) :
  (same = true -> src = tgt) ->
  (same = false -> src && tgt = false) ->
  (src = true -> pos <> opos) ->
  rank_shift tgt src same npos opos (rank_shift src tgt same opos npos pos) = pos.
Proof.
  intros Hsame Hcross Hfree. unfold rank_shift.
  destruct same; [specialize (Hsame eq_refl)|specialize (Hcross eq_refl)];
    destruct src, tgt; try discriminate; cbn [negb andb];
    try specialize (Hfree eq_refl);
    destruct (opos <? npos) eqn:H1, (npos <? opos) eqn:H2,
             (opos <? pos) eqn:H3, (pos <=? npos) eqn:H4,
             (npos <=? pos) eqn:H5, (pos <? opos) eqn:H6; cbn [andb];
    rewrite ?Z.ltb_lt, ?Z.ltb_ge, ?Z.leb_le, ?Z.leb_gt in *; try lia;
    repeat match goal with
           | |- context [?x <? ?y] => destruct (Z.ltb_spec x y)
           | |- context [?x <=? ?y] => destruct (Z.leb_spec x y)
           end; cbn [andb]; lia.
Qed.

(** The shift statements of the move back undo those of the move, on a row
    that does not sit on the moved card's old place. *)
Lemma sibling_shift_back (b : Z) (op : string) (opos : Z) (np : string) (npos : Z)
    (c : Card) :
  (in_column b op c = true -> position c <> opos) ->
  sibling_shift b np npos op opos (sibling_shift b op opos np npos c) = c.
Proof.
  intros Hfree. rewrite (sibling_shift_as_rank b op), (sibling_shift_as_rank b np).
  rewrite !in_column_set_position. cbn [position set_position].
  rewrite (String.eqb_sym np op), rank_shift_back; [now destruct c| | |assumption].
  - intros Hsame%String.eqb_eq. now subst.
  - intros Hcross. destruct (in_column b op c) eqn:Hsrc; trivial.
    apply (in_column_other b op np c Hcross Hsrc).
Qed.

(** X3.  On a table with unique ids and dense columns, a move of a card
    (to any priority text and any position) followed by the move of the same
    card back to its old priority and position leaves the table exactly as it
    was before the two requests. *)
Theorem move_back_restores_table
    (db : Table) (moved : Card) (newPriority : string) (newPosition : Z) :
  NoDup (map id db) ->
  position_invariant db ->
  In moved db ->
  id moved <> 0 -> board_id moved <> 0 -> priority moved <> "" -> newPriority <> "" ->
  snd (PUT (mkMoveRequest (Some (id moved)) (Some (board_id moved))
                          (Some (priority moved)) (Some (position moved)))
           (snd (PUT (mkMoveRequest (Some (id moved)) (Some (board_id moved))
                                    (Some newPriority) (Some newPosition)) db)))
  = db.
Proof.
  intros Hkey Hinv Hin Hc Hb Hp Hnp.
  rewrite (PUT_rows (id moved) (board_id moved) newPriority newPosition moved db)
    by auto using find_by_id.
  cbn [snd].
  set (forth := move_row (id moved) (board_id moved) (priority moved) (position moved)
                         newPriority newPosition).
  assert (Hmoved : forth moved = set_priority newPriority (set_position newPosition moved)).
  { unfold forth, move_row. now rewrite (proj2 (has_id_true _ _) eq_refl). }
  assert (Hfind : find (has_id (id moved)) (map forth db) = Some (forth moved)).
  { replace (id moved) with (id (forth moved)) by (rewrite Hmoved; reflexivity).
    apply find_by_id; [|now apply in_map].
    rewrite map_map.
    erewrite map_ext; [exact Hkey|]. intros c. apply move_row_id. }
  rewrite (PUT_rows _ _ _ _ (forth moved)); trivial. cbn [snd].
  rewrite Hmoved. cbn [priority position set_priority set_position].
  rewrite map_map. rewrite <- (map_id db) at 2. apply map_ext_in. intros c Hcdb.
  unfold forth, move_row. destruct (has_id (id moved) c) eqn:Hid.
  - (* the moved card: its old priority and position are written back *)
    apply has_id_true in Hid.
    rewrite (primary_key db c moved Hkey Hcdb Hin Hid).
    rewrite (proj2 (has_id_true (id moved) _)) by reflexivity. now destruct moved.
  - (* any other row: the second shift undoes the first *)
    unfold has_id. rewrite sibling_shift_id. fold (has_id (id moved) c). rewrite Hid.
    apply sibling_shift_back. intros [Hboard Hprio]%in_column_true Hpos.
    apply has_id_false in Hid. apply Hid. f_equal.
    now apply (position_invariant_unique db).
Qed.

Lemma move_back_restores_table_witness :
  snd (PUT (mkMoveRequest (Some 1) (Some 1) (Some "high") (Some 0))
           (snd (PUT (mkMoveRequest (Some 1) (Some 1) (Some "medium") (Some 0))
                     high_and_medium)))
  = high_and_medium.
Proof.
  apply (move_back_restores_table high_and_medium (sample 1 1 "A" "high" 0) "medium" 0).
  - distinct_keys.
  - by_checker.
  - simpl. auto.
  - discriminate.
  - discriminate.
  - discriminate.
  - discriminate.
Defined.

(** Two moves in a row keep the columns dense. *)
Lemma run_moves_position_invariant_witness :
  position_invariant
    (run_moves [mkMoveRequest (Some 1) (Some 1) (Some "medium") (Some 1);
                mkMoveRequest (Some 2) (Some 1) (Some "medium") (Some 0)]
               high_and_medium).
Proof.
  apply run_moves_position_invariant.
  - distinct_keys.
  - by_checker.
  - apply (valid_moves_cons high_and_medium (sample 1 1 "A" "high" 0) "medium" 1);
      [simpl; auto | vm_compute; split; discriminate |].
    apply (valid_moves_cons _ (sample 2 1 "B" "high" 0) "medium" 0);
      [vm_compute; auto | vm_compute; split; discriminate |].
    apply valid_moves_nil.
Defined.

(** ** Creating, looking up, deleting *)

Lemma dense_append (ps : list Z) :
  dense ps -> dense (ps ++ [Z.of_nat (List.length ps)]).
Proof.
  intros Hd. apply (dense_perm (Z.of_nat (List.length ps) :: ps)).
  - apply Permutation_cons_append.
  - assert (E : map (open_slot (Z.of_nat (List.length ps))) ps = ps).
    { transitivity (map (fun x => x) ps); [|apply map_id].
      apply map_ext_in. intros x Hx.
      apply dense_iff in Hd as [_ Hb]. specialize (Hb x Hx).
      unfold open_slot. destruct (Z.leb_spec (Z.of_nat (List.length ps)) x); lia. }
    pose proof (dense_insert (Z.of_nat (List.length ps)) ps Hd) as Hins.
    rewrite E in Hins. apply Hins. lia.
Qed.

(** X5.  On a table whose columns are dense, [createCard] into a column
    that does not hold exactly one card (an empty column included) leaves
    every column dense: the new card takes the next position and no other row
    changes. *)
Theorem createCard_keeps_invariant (rowid : Z) (now : string) (b : Z) (t : string)
    (d a : option string) (p : Priority) (s : string) (db : Table) :
  position_invariant db ->
  List.length (column_group b (priority_text p) db) <> 1%nat ->
  position_invariant (snd (createCard rowid now b t d a p s db)).
Proof.
  intros Hinv Hsize. rewrite createCard_position by apply Hinv. cbn [snd].
  set (n := Z.of_nat (List.length (column_group b (priority_text p) db))).
  replace (if n =? 1 then 0 else n) with n
    by (destruct (Z.eqb_spec n 1); [unfold n in *; lia | reflexivity]).
  intros b' p'. unfold column_group, positions. rewrite filter_app, map_app.
  cbn [filter]. destruct (in_column b' p' _) eqn:Hcol.
  - apply in_column_true in Hcol as [<- <-]. cbn [map position board_id priority].
    unfold n, column_group. rewrite <- (length_map position). apply dense_append, Hinv.
  - cbn [map]. rewrite app_nil_r. apply Hinv.
Qed.

Lemma createCard_keeps_invariant_witness :
  position_invariant
    (snd (createCard 4 "2026-01-13 09:05:00" 1 "D" None None high "not_started"
                     three_high)).
Proof.
  apply createCard_keeps_invariant.
  - by_checker.
  - vm_compute. discriminate.
Defined.

Lemma find_last {A : Type} (f : A -> bool) (l : list A) (x : A) :
  (forall y, In y l -> f y = false) -> f x = true -> find f (l ++ [x]) = Some x.
Proof.
  intros Hl Hx. induction l as [|y l IH]; simpl.
  - now rewrite Hx.
  - rewrite (Hl y) by now left. apply IH. intros z Hz. apply Hl. now right.
Qed.

Lemma filter_all {A : Type} (f : A -> bool) (l : list A) :
  (forall y, In y l -> f y = true) -> filter f l = l.
Proof. intros H. apply forallb_filter_id, forallb_forall, H. Qed.

(** X6.  When the key the engine assigns is the id of no row, the card
    [createCard] inserts is the one a lookup by the returned id reads, with
    the board, title, description, assignee, priority and status that were
    passed, and [deleteCard] of the returned id gives back the table as it was
    before the insertion. *)
Theorem createCard_lookup_delete (rowid : Z) (now : string) (b : Z) (t : string)
    (d a : option string) (p : Priority) (s : string) (db : Table) :
  (forall c, In c db -> id c <> rowid) ->
  let created := createCard rowid now b t d a p s db in
  (exists pos,
     find (has_id (fst created)) (snd created)
     = Some (mkCard rowid b t d a (priority_text p) s pos now (Some now)))
  /\ deleteCard (fst created) (snd created) = db.
Proof.
  intros Hfresh. unfold createCard, INSERT. cbn [fst snd]. split.
  - eexists. apply find_last.
    + intros c Hc. now apply has_id_false, Hfresh.
    + now apply has_id_true.
  - unfold deleteCard, DELETE. rewrite filter_app. cbn [filter].
    rewrite (proj2 (has_id_true rowid _)) by reflexivity. cbn [negb].
    rewrite app_nil_r. apply filter_all. intros c Hc.
    apply negb_true_iff. now apply has_id_false, Hfresh.
Qed.

Lemma createCard_lookup_delete_witness :
  deleteCard (fst (createCard 4 "2026-01-13 09:05:00" 1 "D" None None low "done" three_high))
             (snd (createCard 4 "2026-01-13 09:05:00" 1 "D" None None low "done" three_high))
  = three_high.
Proof.
  apply (createCard_lookup_delete 4 "2026-01-13 09:05:00" 1 "D" None None low "done"
           three_high).
  simpl. intros c [<-|[<-|[<-|[]]]]; discriminate.
Defined.

(** X7.  After [deleteCard], a move request for the deleted id with its
    four fields present is answered not-found and writes nothing. *)
Theorem move_after_delete_not_found (req : MoveRequest) (i : Z) (db : Table) :
  passes_validation req = true ->
  cardId req = Some i ->
  PUT req (deleteCard i db) = (NotFound, deleteCard i db).
Proof.
  intros Hv Hi.
  apply passes_validation_inv in Hv as (cid & bid & np & npos & -> & Hc & Hb & Hp).
  injection Hi as ->. apply PUT_not_found; trivial. apply find_absent.
  intros c [_ Hc']%filter_In. apply negb_true_iff in Hc'. now apply has_id_false.
Qed.

Lemma move_after_delete_not_found_witness :
  PUT (mkMoveRequest (Some 2) (Some 1) (Some "low") (Some 0)) (deleteCard 2 three_high)
  = (NotFound, deleteCard 2 three_high).
Proof.
  apply move_after_delete_not_found; reflexivity.
Defined.

(** ** Editing a card *)

(** X8.  [updateCard] adds no row, removes none, keeps their order, leaves
    the id, board, position and creation time of every row as they were, and
    leaves every row with another id exactly as it was. *)
Theorem updateCard_keeps_place (now : string) (i : Z) (t : string)
    (d a : option string) (p : Priority) (s : string) (db : Table) :
  Forall2 (fun c c' => same_place c c' /\ (id c <> i -> c' = c))
          db (updateCard now i t d a p s db).
Proof.
  unfold updateCard, UPDATE. apply Forall2_map_right. intros c _.
  destruct (has_id i c) eqn:Hid.
  - split; [now repeat split|]. apply has_id_true in Hid. congruence.
  - split; [now repeat split|reflexivity].
Qed.

Lemma updateCard_keeps_place_witness :
  Forall2 (fun c c' => same_place c c' /\ (id c <> 2 -> c' = c))
          three_high
          (updateCard "2026-01-14 10:00:00" 2 "B2" None None low "done" three_high).
Proof.
  exact (updateCard_keeps_place "2026-01-14 10:00:00" 2 "B2" None None low "done"
           three_high).
Defined.

Lemma column_positions_map (b : Z) (p : string) (g : Card -> Card) (l : list Card) :
  (forall c, In c l ->
     board_id (g c) = board_id c /\ priority (g c) = priority c
     /\ position (g c) = position c) ->
  positions (column_group b p (map g l)) = positions (column_group b p l).
Proof.
  intros Hg. unfold positions, column_group.
  induction l as [|c l IH]; simpl; trivial.
  destruct (Hg c (or_introl eq_refl)) as (Hb & Hp & Hpos).
  assert (IH' := IH (fun c' H => Hg c' (or_intror H))).
  unfold in_column at 1. rewrite Hb, Hp. fold (in_column b p c).
  destruct (in_column b p c); simpl; now rewrite ?Hpos, IH'.
Qed.

Lemma has_id_set_details (i : Z) (t : string) (d a : option string) (p s u : string)
    (c : Card) :
  has_id i (set_details t d a p s u c) = has_id i c.
Proof. reflexivity. Qed.

(** X9.  Saving a card with the priority and the board it already has,
    which is [updateCard] followed by [updateCardBoard] as the cards route
    runs them, leaves every column of a table with unique ids dense, whatever
    title, description, assignee and status are saved. *)
Theorem edit_in_place_keeps_invariant (now : string) (card : Card) (t : string)
    (d a : option string) (p : Priority) (s : string) (db : Table) :
  NoDup (map id db) ->
  In card db ->
  position_invariant db ->
  priority_text p = priority card ->
  position_invariant
    (updateCardBoard (id card) (board_id card)
       (updateCard now (id card) t d a p s db)).
Proof.
  intros Hkey Hin Hinv Hprio b' p'.
  unfold updateCardBoard, updateCard, UPDATE. rewrite map_map.
  rewrite column_positions_map; [apply Hinv|].
  intros c Hc. destruct (has_id (id card) c) eqn:Hid.
  - rewrite has_id_set_details, Hid. apply has_id_true in Hid.
    rewrite (primary_key db c card Hkey Hc Hin Hid). cbn. auto.
  - rewrite Hid. auto.
Qed.

Lemma edit_in_place_keeps_invariant_witness :
  position_invariant
    (updateCardBoard 2 1
       (updateCard "2026-01-14 10:00:00" 2 "B2" (Some "text") None high "in_progress"
                   three_high)).
Proof.
  apply (edit_in_place_keeps_invariant "2026-01-14 10:00:00" (sample 2 1 "B" "high" 1)).
  - distinct_keys.
  - simpl. auto.
  - by_checker.
  - reflexivity.
Defined.

(** ** Creating a board *)

Lemma fold_max_dense (a : Z) (l : list Z) :
  dense (a :: l) -> fold_left Z.max l a = Z.of_nat (List.length (a :: l)) - 1.
Proof.
  intros Hd.
  pose proof (fold_max_spec l a) as (Hin & Hle & Hall).
  set (m := fold_left Z.max l a) in *.
  remember (Z.of_nat (List.length (a :: l)) - 1) as k eqn:Hk.
  assert (Hlast : In k (a :: l)).
  { apply (Permutation_in _ (Permutation_sym Hd)), in_ranks. simpl List.length in *. lia. }
  apply dense_iff in Hd as [_ Hb].
  assert (Hm : In m (a :: l)).
  { destruct Hin as [E|Hin]; [left; now rewrite E | now right]. }
  apply Hb in Hm. destruct Hlast as [E|Hlast]; [lia|].
  apply Hall in Hlast. lia.
Qed.

(** X10.  On boards at positions [0, ..., n-1], [createBoard] appends a
    board at position [n], except when there is exactly one board: its
    position 0 is read as missing and the new board is given 0 as well.  The
    existing boards are unchanged. *)
Theorem createBoard_position (rowid : Z) (now : string) (nm : string)
    (boards : list Board) :
  dense (map board_position boards) ->
  createBoard rowid now nm boards
  = (rowid,
     boards ++ [mkBoard rowid nm
                  (let n := Z.of_nat (List.length boards) in if n =? 1 then 0 else n)
                  now]).
Proof.
  intros Hd. unfold createBoard. do 3 f_equal.
  destruct boards as [|b rest]; [reflexivity|].
  unfold MAX_board_position. cbn [map] in Hd. rewrite (fold_max_dense _ _ Hd).
  cbn [List.length]. rewrite length_map. unfold or_else. cbv zeta.
  set (n := Z.of_nat (S (List.length rest))).
  replace ((if n - 1 =? 0 then -1 else n - 1) + 1) with (if n =? 1 then 0 else n);
    [reflexivity|].
  destruct (Z.eqb_spec (n - 1) 0), (Z.eqb_spec n 1); lia.
Qed.

Lemma createBoard_position_witness :
  createBoard 3 "2026-01-13 09:00:00" "Research"
    [mkBoard 1 "Dev" 0 "2026-01-01 00:00:00"; mkBoard 2 "Ops" 1 "2026-01-02 00:00:00"]
  = (3, [mkBoard 1 "Dev" 0 "2026-01-01 00:00:00"; mkBoard 2 "Ops" 1 "2026-01-02 00:00:00";
         mkBoard 3 "Research" 2 "2026-01-13 09:00:00"]).
Proof.
  apply (createBoard_position 3 "2026-01-13 09:00:00" "Research"
           [mkBoard 1 "Dev" 0 "2026-01-01 00:00:00";
            mkBoard 2 "Ops" 1 "2026-01-02 00:00:00"]).
  apply check_dense_spec. reflexivity.
Defined.

Lemma find_miss_last {A : Type} (f : A -> bool) (l : list A) (x : A) :
  f x = false -> find f (l ++ [x]) = find f l.
Proof.
  intros Hx. induction l as [|y l IH]; simpl.
  - now rewrite Hx.
  - now destruct (f y).
Qed.

(** X11.  When the key the engine assigns is the id of no board,
    [getBoard] of the id [createBoard] returns reads the board just created,
    under the name that was passed, and [getBoard] of any other id reads what
    it read before. *)
Theorem getBoard_after_createBoard (rowid : Z) (now : string) (nm : string)
    (boards : list Board) :
  (forall b, In b boards -> board_key b <> rowid) ->
  let created := createBoard rowid now nm boards in
  (exists pos, getBoard (fst created) (snd created) = Some (mkBoard rowid nm pos now))
  /\ (forall i, i <> rowid -> getBoard i (snd created) = getBoard i boards).
Proof.
  intros Hfresh. unfold createBoard, getBoard. cbn [fst snd]. split.
  - eexists. apply find_last.
    + intros b Hb. now apply Z.eqb_neq, Hfresh.
    + apply Z.eqb_refl.
  - intros i Hi. apply find_miss_last. cbn [board_key].
    apply Z.eqb_neq. congruence.
Qed.

Lemma getBoard_after_createBoard_witness :
  getBoard 1 (snd (createBoard 2 "2026-01-13 09:00:00" "Ops"
                               [mkBoard 1 "Dev" 0 "2026-01-01 00:00:00"]))
  = getBoard 1 [mkBoard 1 "Dev" 0 "2026-01-01 00:00:00"].
Proof.
  apply (getBoard_after_createBoard 2 "2026-01-13 09:00:00" "Ops"
           [mkBoard 1 "Dev" 0 "2026-01-01 00:00:00"]).
  - simpl. intros b [<-|[]]. discriminate.
  - discriminate.
Defined.

(** ** The order of a board's cards *)


Lemma null_first_compare_refl (a : option Z) : null_first_compare a a = Eq.
Proof. destruct a; simpl; trivial. apply Z.compare_refl. Qed.










(** ** The drop handler *)

Lemma findIndex_bound (f : Card -> bool) (l : list Card) :
  findIndex f l = -1 \/ 0 <= findIndex f l < Z.of_nat (List.length l).
Proof.
  induction l as [|c l IH]; simpl findIndex; [now left|].
  destruct (f c); [right; simpl List.length; lia|].
  destruct (Z.eqb_spec (findIndex f l) (-1)); [now left|].
  right. simpl List.length. lia.
Qed.

(** What a call of [onMoveCard] tells about the drag that made it. *)
Lemma handleDragEnd_inv (cards : list Card) (a : Z) (over : option UniqueIdentifier)
    (i : Z) (p : string) (pos : Z) :
  handleDragEnd cards a over = Some (i, p, pos) ->
  i = a
  /\ exists card,
       find (has_id a) (activeCards cards) = Some card
       /\ (priority card <> p \/ pos <> position card)
       /\ 0 <= pos
          <= Z.of_nat (List.length
                         (filter (fun c => (priority c =? p)%string) (activeCards cards))).
Proof.
  unfold handleDragEnd. destruct over as [overId|]; [|discriminate].
  destruct (find (has_id a) (activeCards cards)) as [card|]; [|discriminate].
  match goal with
  | |- match ?t with Some _ => _ | None => _ end = _ -> _ =>
      destruct t as [tp|]; [|discriminate]
  end.
  cbv zeta.
  match goal with
  | |- (if _ || negb (?np =? _) then _ else _) = _ -> _ => set (newPosition := np)
  end.
  destruct (negb (priority card =? tp)%string || negb (newPosition =? position card))
    eqn:Hchanged; [|discriminate].
  intros E. injection E as <- <- <-. split; trivial.
  exists card. split; trivial. split.
  - apply orb_true_iff in Hchanged as [H|H]; apply negb_true_iff in H.
    + left. now apply String.eqb_neq.
    + right. now apply Z.eqb_neq.
  - unfold newPosition. clear Hchanged newPosition.
    destruct (same_identifier _ _); [lia|].
    match goal with
    | |- context [negb (?ix =? -1)] =>
        destruct (findIndex_bound
                    (fun c => same_identifier (NumberId (id c)) overId)
                    (filter (fun c => (priority c =? tp)%string) (activeCards cards)))
          as [Hnone|Hsome]
    end.
    + rewrite Hnone. cbn. lia.
    + destruct (negb (_ =? -1)); [|lia].
      destruct (_ && _); [destruct (_ <? _)|]; lia.
Qed.

(** X13.  [handleDragEnd] calls [onMoveCard] only for the dragged card,
    found among the cards that are not done, only with a target that differs
    from the card's current priority or position, and only with a position
    between 0 and the number of not-done cards shown in the target column; a
    drag that ends over nothing, or of a card that is done or unknown, makes
    no call. *)
Theorem handleDragEnd_request (cards : list Card) (a : Z)
    (over : option UniqueIdentifier) :
  (forall i p pos,
     handleDragEnd cards a over = Some (i, p, pos) ->
     i = a
     /\ (exists card,
           find (has_id a) (activeCards cards) = Some card
           /\ (priority card <> p \/ pos <> position card))
     /\ 0 <= pos
        <= Z.of_nat (List.length
                       (filter (fun c => (priority c =? p)%string) (activeCards cards))))
  /\ handleDragEnd cards a None = None
  /\ (find (has_id a) (activeCards cards) = None -> handleDragEnd cards a over = None).
Proof.
  split; [|split].
  - intros i p pos H.
    destruct (handleDragEnd_inv _ _ _ _ _ _ H) as (-> & card & Hact & Hch & Hpos).
    split; [reflexivity|]. split; [|exact Hpos]. now exists card.
  - reflexivity.
  - intros Hnone. unfold handleDragEnd. destruct over; trivial. now rewrite Hnone.
Qed.

Lemma handleDragEnd_request_witness :
  0 <= 1 <= Z.of_nat (List.length
                        (filter (fun c => (priority c =? "medium")%string)
                                (activeCards high_and_medium))).
Proof.
  apply (proj1 (handleDragEnd_request high_and_medium 1 (Some (StringId "medium-column")))
           1 "medium" 1 eq_refl).
Defined.

Lemma filter_filter_and {A : Type} (f g : A -> bool) (l : list A) :
  filter f (filter g l) = filter (fun x => g x && f x) l.
Proof.
  induction l as [|x l IH]; simpl; trivial.
  destruct (g x); simpl; [destruct (f x)|]; now rewrite IH.
Qed.

Lemma filter_length_le {A : Type} (f g : A -> bool) (l : list A) :
  (forall x, In x l -> f x = true -> g x = true) ->
  (List.length (filter f l) <= List.length (filter g l))%nat.
Proof.
  intros Hfg. induction l as [|x l IH]; simpl; trivial.
  assert (IH' := IH (fun y H => Hfg y (or_intror H))).
  destruct (f x) eqn:Hf.
  - rewrite (Hfg x (or_introl eq_refl) Hf). simpl. lia.
  - destruct (g x); simpl; lia.
Qed.

(** The cards shown in another column are among the siblings the moved
    card will have there. *)
Lemma shown_target_cards_le (b : Z) (p : string) (card : Card) (cards : list Card) :
  NoDup (map id cards) ->
  Forall (fun c => board_id c = b) cards ->
  In card cards ->
  priority card <> p ->
  (List.length (filter (fun c => (priority c =? p)%string) (activeCards cards))
   <= List.length (siblings card b p cards))%nat.
Proof.
  intros Hkey Hboard Hin Hprio. rewrite Forall_forall in Hboard.
  unfold siblings, column_group, activeCards. rewrite !filter_filter_and.
  apply filter_length_le. intros x Hx [_ Hp]%andb_true_iff.
  apply String.eqb_eq in Hp. apply andb_true_iff. split.
  - apply in_column_true. auto.
  - apply negb_true_iff, has_id_false. intros E.
    apply Hprio. now rewrite <- (primary_key cards x card Hkey Hx Hin E).
Qed.

(** X14.  On the card list of a board, with unique ids and dense columns,
    the request the page sends for a drag that ends in another column (over
    the column or over one of its cards) leaves every column dense. *)
Theorem drop_in_other_column_keeps_invariant
    (b : Z) (cards : list Card) (a : Z) (over : option UniqueIdentifier)
    (card : Card) (i : Z) (p : string) (pos : Z) :
  NoDup (map id cards) ->
  position_invariant cards ->
  Forall (fun c => board_id c = b) cards ->
  find (has_id a) (activeCards cards) = Some card ->
  handleDragEnd cards a over = Some (i, p, pos) ->
  priority card <> p ->
  position_invariant
    (snd (PUT (mkMoveRequest (Some i) (Some b) (Some p) (Some pos)) cards)).
Proof.
  intros Hkey Hinv Hboard Hact Hdrag Hcross.
  destruct (handleDragEnd_inv _ _ _ _ _ _ Hdrag) as (-> & card' & Hact' & _ & Hpos).
  assert (card' = card) by congruence; subst card'.
  apply find_some in Hact as [[Hin _]%filter_In Hid]. apply has_id_true in Hid.
  assert (Hb : board_id card = b)
    by (rewrite Forall_forall in Hboard; now apply Hboard).
  subst a b.
  pose proof (shown_target_cards_le _ p card cards Hkey Hboard Hin Hcross) as Hle.
  set (req := mkMoveRequest _ _ _ _).
  destruct (passes_validation req) eqn:Hv; [|now rewrite PUT_rejected].
  apply passes_validation_inv in Hv as (? & ? & ? & ? & E & Hc & Hb & Hp).
  injection E as <- <- <- <-. unfold req.
  rewrite (PUT_rows _ _ _ _ card) by auto using find_by_id.
  apply move_rows_keep_invariant; trivial. lia.
Qed.

Lemma drop_in_other_column_keeps_invariant_witness :
  position_invariant
    (snd (PUT (mkMoveRequest (Some 1) (Some 1) (Some "medium") (Some 1)) high_and_medium)).
Proof.
  apply (drop_in_other_column_keeps_invariant 1 high_and_medium 1
           (Some (StringId "medium-column")) (sample 1 1 "A" "high" 0)).
  - distinct_keys.
  - by_checker.
  - repeat constructor.
  - reflexivity.
  - reflexivity.
  - discriminate.
Defined.

Lemma NoDup_map_filter {A B : Type} (g : A -> B) (f : A -> bool) (l : list A) :
  NoDup (map g l) -> NoDup (map g (filter f l)).
Proof.
  induction l as [|x l IH]; simpl; trivial.
  intros Hnd. inversion Hnd as [|? ? Hx Hl]; subst.
  destruct (f x); simpl; auto. constructor; auto.
  intros (y & E & [Hy _]%filter_In)%in_map_iff. apply Hx. rewrite <- E. now apply in_map.
Qed.

(** The three column ids are the three priorities followed by [-column]. *)
Lemma column_id_of_priority (p : string) :
  is_valid_priority p = true ->
  same_identifier (StringId (p ++ "-column")) (StringId "high-column")
  || same_identifier (StringId (p ++ "-column")) (StringId "medium-column")
  || same_identifier (StringId (p ++ "-column")) (StringId "low-column") = true
  /\ replace_first "-column" "" (p ++ "-column") = p
  /\ p <> "".
Proof.
  unfold is_valid_priority. intros Hvalid.
  rewrite !orb_true_iff, !String.eqb_eq in Hvalid.
  destruct Hvalid as [[->| ->]| ->]; repeat split; try reflexivity; discriminate.
Qed.

(** With no done card in a column, the column shows all its cards. *)
Lemma shown_column_cards (b : Z) (p : string) (cards : list Card) :
  Forall (fun c => board_id c = b) cards ->
  (forall c, In c cards -> priority c = p -> status c <> "done") ->
  filter (fun c => (priority c =? p)%string) (activeCards cards) = column_group b p cards.
Proof.
  intros Hboard Hshown. rewrite Forall_forall in Hboard.
  unfold activeCards, column_group. rewrite filter_filter_and.
  apply filter_ext_in. intros c Hc. unfold in_column.
  rewrite (Hboard c Hc), Z.eqb_refl. cbn [andb].
  destruct (String.eqb_spec (priority c) p) as [Hp|_]; [|apply andb_false_r].
  rewrite andb_true_r. apply negb_true_iff, String.eqb_neq. now apply Hshown.
Qed.

(** X15.  On the card list of a board, with unique ids and dense columns,
    dropping a card on the free area of its own column, when no card of that
    column is done, makes the page ask for the position [n], the size of the
    column; the endpoint accepts the request, and afterwards that column is
    not dense: the moved card sits at position [n] among [n] cards. *)
Theorem drop_on_own_column_leaves_gap (b : Z) (cards : list Card) (card : Card) :
  NoDup (map id cards) ->
  position_invariant cards ->
  Forall (fun c => board_id c = b) cards ->
  In card cards ->
  id card <> 0 -> b <> 0 ->
  is_valid_priority (priority card) = true ->
  (forall c, In c cards -> priority c = priority card -> status c <> "done") ->
  let n := Z.of_nat (List.length (column_group b (priority card) cards)) in
  handleDragEnd cards (id card) (Some (StringId (priority card ++ "-column")))
  = Some (id card, priority card, n)
  /\ fst (PUT (mkMoveRequest (Some (id card)) (Some b) (Some (priority card)) (Some n))
              cards) = Success
  /\ ~ position_invariant
         (snd (PUT (mkMoveRequest (Some (id card)) (Some b) (Some (priority card))
                                  (Some n)) cards)).
Proof.
  intros Hkey Hinv Hboard Hin Hc Hb Hvalid Hshown n.
  destruct (column_id_of_priority _ Hvalid) as (Hcolumn & Hreplace & Hp).
  assert (Hcb : board_id card = b)
    by (rewrite Forall_forall in Hboard; now apply Hboard).
  subst b.
  assert (Hcol : In card (column_group (board_id card) (priority card) cards)).
  { apply filter_In. split; trivial. now apply in_column_true. }
  assert (Hbelow : 0 <= position card < n).
  { destruct (proj1 (dense_iff _) (Hinv (board_id card) (priority card))) as [_ Hbound].
    unfold n. rewrite <- (length_map position). apply Hbound.
    now apply (in_map position). }
  split; [|split].
  - (* the call the handler makes *)
    assert (Hact : find (has_id (id card)) (activeCards cards) = Some card).
    { apply find_by_id; [now apply NoDup_map_filter|].
      apply filter_In. split; trivial.
      apply negb_true_iff, String.eqb_neq. now apply Hshown. }
    unfold handleDragEnd. rewrite Hact, Hcolumn, Hreplace.
    cbv zeta. cbn [same_identifier]. rewrite !String.eqb_refl.
    rewrite (shown_column_cards (board_id card)) by assumption. fold n. cbn [negb orb].
    now rewrite (proj2 (Z.eqb_neq n (position card))) by lia.
  - now rewrite (PUT_rows _ _ _ _ card) by auto using find_by_id.
  - (* the column after the request: [n] rows, one of them at position [n] *)
    rewrite (PUT_rows _ _ _ _ card) by auto using find_by_id. cbn [snd].
    set (f := move_row _ _ _ _ _ _).
    intros Hdense. specialize (Hdense (board_id card) (priority card)).
    apply dense_iff in Hdense as [_ Hbound].
    assert (Hsame : forall c, In c cards ->
              in_column (board_id card) (priority card) (f c)
              = in_column (board_id card) (priority card) c).
    { intros c Hcin. unfold f, move_row. destruct (has_id (id card) c) eqn:Hid.
      - apply has_id_true in Hid.
        rewrite (primary_key cards c card Hkey Hcin Hin Hid).
        unfold in_column. cbn. now rewrite Z.eqb_refl, String.eqb_refl.
      - apply sibling_shift_in_column. }
    assert (Hlen : List.length (positions (column_group (board_id card) (priority card)
                                                        (map f cards)))
                   = List.length (column_group (board_id card) (priority card) cards)).
    { unfold positions, column_group. rewrite length_map, filter_map_swap, length_map.
      f_equal. apply filter_ext_in. exact Hsame. }
    assert (Hthere : In n (positions (column_group (board_id card) (priority card)
                                                   (map f cards)))).
    { replace n with (position (f card)).
      - apply (in_map position), filter_In. split; [now apply in_map|].
        rewrite Hsame by assumption. now apply in_column_true.
      - unfold f, move_row. now rewrite (proj2 (has_id_true _ _) eq_refl). }
    apply Hbound in Hthere. rewrite Hlen in Hthere. fold n in Hthere. lia.
Qed.

Lemma drop_on_own_column_leaves_gap_witness :
  handleDragEnd two_high 1 (Some (StringId "high-column")) = Some (1, "high", 2)
  /\ fst (PUT append_in_place two_high) = Success
  /\ ~ position_invariant (snd (PUT append_in_place two_high)).
Proof.
  apply (drop_on_own_column_leaves_gap 1 two_high (sample 1 1 "A" "high" 0)).
  - distinct_keys.
  - by_checker.
  - repeat constructor.
  - simpl. auto.
  - discriminate.
  - discriminate.
  - reflexivity.
  - simpl. intros c [<-|[<-|[]]] _; discriminate.
Defined.

(** ** The prediction leaves the payload alone; a request sent twice *)

(** X16.  Whatever the move, the array [handleMoveCard] predicts has the
    cards of the current array in the same order, each with its id, board,
    title, description, assignee, status and timestamps unchanged: only
    priorities and positions differ. *)
Theorem handleMoveCard_keeps_payload (cards : list Card) (cardId : Z)
    (newPriority : Priority) (newPosition : Z) :
  Forall2 same_payload cards (handleMoveCard cards cardId newPriority newPosition).
Proof.
  unfold handleMoveCard. destruct (find _ cards) as [card|].
  - apply Forall2_map_right. intros c _. case_ifs; now repeat split.
  - apply Forall2_same. intros c. now repeat split.
Qed.

Lemma find_map_has_id (cid : Z) (f : Card -> Card) (db : Table) :
  (forall c, id (f c) = id c) ->
  find (has_id cid) (map f db) = option_map f (find (has_id cid) db).
Proof.
  intros Hf. induction db as [|c db IH]; simpl; trivial.
  unfold has_id at 1. rewrite Hf. fold (has_id cid c).
  now destruct (has_id cid c).
Qed.

(** A request with a number for position, or none, sent a second time. *)
Lemma PUT_twice (req : MoveRequest) (db : Table) :
  PUT req (snd (PUT req db)) = PUT req db.
Proof.
  destruct (passes_validation req) eqn:Hv; [|now rewrite !PUT_rejected].
  apply passes_validation_inv in Hv as (cid & bid & np & npos & -> & Hc & Hb & Hp).
  destruct (find (has_id cid) db) as [row|] eqn:Hf.
  - rewrite (PUT_rows _ _ _ _ row db) by assumption. cbn [snd].
    set (f := move_row cid bid (priority row) (position row) np npos).
    assert (Hfind : find (has_id cid) (map f db) = Some (f row)).
    { rewrite find_map_has_id, Hf; [reflexivity|]. intros c. apply move_row_id. }
    rewrite (PUT_rows _ _ _ _ (f row)) by assumption. f_equal.
    assert (Hrow : f row = set_priority np (set_position npos row)).
    { unfold f, move_row. apply find_some in Hf as [_ Hid]. now rewrite Hid. }
    rewrite Hrow. cbn [priority position set_priority set_position].
    rewrite map_map. apply map_ext. intros c.
    unfold f, move_row at 1. unfold has_id at 1. rewrite move_row_id.
    fold (has_id cid c). unfold move_row. destruct (has_id cid c).
    + reflexivity.
    + apply sibling_shift_same.
  - rewrite (PUT_not_found _ _ _ _ db) by assumption. cbn [snd].
    now rewrite PUT_not_found.
Qed.

(** ** Changing the priority in the card form *)

(** X18.  [updateCard] with another priority leaves the card's position
    as it is.  On a table with unique ids and dense columns, when the column
    the card enters already holds more cards than that position, the column
    afterwards has two cards at the same position: the table is no longer
    dense. *)
Theorem updateCard_priority_change_collides (now : string) (card : Card) (t : string)
    (d a : option string) (p : Priority) (s : string) (db : Table) :
  NoDup (map id db) ->
  In card db ->
  position_invariant db ->
  priority_text p <> priority card ->
  position card
    < Z.of_nat (List.length (column_group (board_id card) (priority_text p) db)) ->
  ~ position_invariant (updateCard now (id card) t d a p s db).
Proof.
  intros Hkey Hin Hinv Hprio Hroom Hafter.
  set (b := board_id card) in *. set (q := priority_text p) in *.
  destruct (take_out db card Hkey Hin) as (others & Hperm & Hothers).
  set (card' := set_details t d a q s now card).
  (* the table after the update: the edited card and the other rows as they were *)
  assert (Hupdated : Permutation (updateCard now (id card) t d a p s db) (card' :: others)).
  { unfold updateCard, UPDATE. rewrite (Permutation_map _ Hperm). cbn [map].
    rewrite (proj2 (has_id_true _ _) eq_refl). fold q card'. apply perm_skip.
    erewrite map_ext_in; [rewrite map_id; reflexivity|].
    intros c Hc. cbv beta. now rewrite (Hothers c Hc). }
  (* the column it enters, before: the same rows without the card *)
  assert (Hbefore : Permutation (positions (column_group b q db))
                                (positions (column_group b q others))).
  { rewrite (column_positions_perm b q _ _ Hperm). unfold column_group. cbn [filter].
    replace (in_column b q card) with false; [reflexivity|].
    symmetry. unfold in_column. fold b. rewrite Z.eqb_refl. cbn [andb].
    apply String.eqb_neq. congruence. }
  (* the card's position is taken in that column *)
  assert (Htaken : In (position card) (positions (column_group b q others))).
  { apply (Permutation_in _ Hbefore).
    apply (Permutation_in _ (Permutation_sym (Hinv b q))), in_ranks.
    split; [|unfold positions; now rewrite length_map].
    destruct (proj1 (dense_iff _) (Hinv b (priority card))) as [_ Hbound].
    apply Hbound, (in_map position), filter_In. split; trivial.
    now apply in_column_true. }
  specialize (Hafter b q). apply dense_iff in Hafter as [Hnd _].
  apply (Permutation_NoDup (column_positions_perm b q _ _ Hupdated)) in Hnd.
  unfold column_group in Hnd. cbn [filter] in Hnd.
  replace (in_column b q card') with true in Hnd
    by (symmetry; apply in_column_true; now split).
  unfold positions in Hnd. cbn [map] in Hnd.
  inversion Hnd as [|? ? Hfresh _]. now apply Hfresh.
Qed.

Lemma updateCard_priority_change_collides_witness :
  ~ position_invariant
      (updateCard "2026-01-14 10:00:00" 1 "A" None None medium "not_started"
                  high_and_medium).
Proof.
  apply (updateCard_priority_change_collides "2026-01-14 10:00:00"
           (sample 1 1 "A" "high" 0) "A" None None medium "not_started" high_and_medium).
  - distinct_keys.
  - simpl. auto.
  - by_checker.
  - discriminate.
  - vm_compute. reflexivity.
Defined.

(** X17.  A move request whose [newPosition] is a number or absent, sent a
    second time, gets the answer of the first and changes nothing more: the
    table after the two requests is the table after the first.  With a null
    [newPosition] this fails: on [high: A:0, B:1, C:2] the request for card A
    to medium is answered 500 after B and C moved down, and sent again it is
    answered 500 after C moved down once more. *)
Theorem PUT_raw_twice (req : RawMoveRequest) (db : Table) :
  rawNewPosition req <> Some PositionNull ->
  PUT_raw req (snd (PUT_raw req db)) = PUT_raw req db
  /\ PUT_raw null_position_request three_high
     = (ServerError,
        [sample 1 1 "A" "high" 0; sample 2 1 "B" "high" 0; sample 3 1 "C" "high" 1])
  /\ PUT_raw null_position_request (snd (PUT_raw null_position_request three_high))
     = (ServerError,
        [sample 1 1 "A" "high" 0; sample 2 1 "B" "high" 0; sample 3 1 "C" "high" 0]).
Proof.
  intros Hnumber. split; [|split; reflexivity].
  unfold PUT_raw. destruct (rawNewPosition req) as [[|n]|].
  - now destruct Hnumber.
  - apply PUT_twice.
  - apply PUT_twice.
Qed.

Lemma PUT_raw_twice_witness :
  PUT_raw (mkRawMoveRequest (Some 1) (Some 1) (Some "medium") (Some (PositionNumber 0)))
          (snd (PUT_raw (mkRawMoveRequest (Some 1) (Some 1) (Some "medium")
                                          (Some (PositionNumber 0)))
                        three_high))
  = PUT_raw (mkRawMoveRequest (Some 1) (Some 1) (Some "medium") (Some (PositionNumber 0)))
            three_high.
Proof.
  apply (PUT_raw_twice
           (mkRawMoveRequest (Some 1) (Some 1) (Some "medium") (Some (PositionNumber 0)))
           three_high).
  discriminate.
Defined.
